(** * gapir replay server: session loop, prewarm state and cache selection

    A shallow embedding of [cmd/gapir/cc/main.cpp]: the per-connection
    request handler installed by [Setup] (with its two helper lambdas
    [cleanup_state] and [prime_state]), the cache selector [createCache] and
    the monitor process it forks.

    [Context], [GrpcReplayService], [OnDiskResourceCache] and the operating
    system are collaborators whose code is not part of this file of the
    repository.  Their calls are recorded as events of a trace, and their
    answers are taken from oracles over which every theorem quantifies.

    Every [kReplay] and [kPrewarm] case runs under the [std::lock_guard] on
    the server-wide mutex, so the handling of one request is one step on the
    shared [PrewarmData]; the threads themselves are not modelled. *)

From Stdlib Require Import String Ascii List Bool Arith NArith ZArith Lia.
From Stdlib Require Import DecimalString DecimalNat.
Import ListNotations.
Open Scope string_scope.
Open Scope list_scope.

(** ** The session handler of [Setup] *)

Module Session.

(** [GrpcReplayService*] and [Context*]: only the identity of the pointee
    matters; a null pointer is [None] in the fields that hold one. *)
Definition Service := nat.
Definition ContextPtr := nat.

(** [struct PrewarmData], shared by all the connections of one server. *)
Record PrewarmData := mkPrewarmData {
  prewarm_service : option Service;
  prewarm_context : option ContextPtr;
  prewarm_id : string;
  cleanup_id : string;
  current_state : string
}.

(** The default member initialisers: null pointers and empty strings. *)
Definition PrewarmData_init : PrewarmData :=
  mkPrewarmData None None "" "" "".

(** [replay_service::ReplayRequest], by [req_case()]. *)
Inductive ReplayRequest :=
| kReplay (replay_id dependent_id : string)
| kPrewarm (prerun_id cleanup_id : string)
| REQ_NOT_SET.

(** What the handler does to its collaborators.  [EInterpret] keeps the
    argument as written at the call site: [None] is [interpret()], which
    leaves the choice to the default declared in [context.h]. *)
Inductive Event :=
| EInitialize (c : ContextPtr) (id : string) (ok : bool)
| EPrefetch (c : ContextPtr)
| EInterpret (c : ContextPtr) (flush : option bool) (ok : bool)
| ECleanup (c : ContextPtr) (ok : bool)
| ESendReplayFinished (s : Service)
| EPrimeState (s : Service) (state cleanup : string).

(** The state threaded through the handler: the shared [PrewarmData], the
    number of answers already drawn from the oracle, and the events so far,
    oldest first. *)
Record World := mkWorld {
  prewarm : PrewarmData;
  calls : nat;
  trace : list Event
}.

Definition World_init : World := mkWorld PrewarmData_init 0 [].

(** A computation either yields a value and a new world, or dereferences a
    null pointer, which is where the model of the C++ program stops. *)
Inductive Res (A : Type) :=
| Val (a : A) (w : World)
| NullDeref (w : World).
Arguments Val {A} a w.
Arguments NullDeref {A} w.

Definition M (A : Type) := World -> Res A.

Definition ret {A} (a : A) : M A := fun w => Val a w.

Definition bind {A B} (m : M A) (k : A -> M B) : M B :=
  fun w => match m w with
           | Val a w' => k a w'
           | NullDeref w' => NullDeref w'
           end.

Notation "x <- m ;; k" := (bind m (fun x => k))
  (at level 61, m at next level, right associativity).
Notation "m ;;; k" := (bind m (fun _ => k))
  (at level 61, right associativity).

Definition world_of {A} (r : Res A) : World :=
  match r with Val _ w => w | NullDeref w => w end.

Definition get : M PrewarmData := fun w => Val (prewarm w) w.

Definition modify (f : PrewarmData -> PrewarmData) : M unit :=
  fun w => Val tt (mkWorld (f (prewarm w)) (calls w) (trace w)).

Definition emit (e : Event) : M unit :=
  fun w => Val tt (mkWorld (prewarm w) (calls w) (trace w ++ [e])).

(** [p->...] on a pointer field of [PrewarmData]. *)
Definition deref {A} (p : option A) : M A :=
  fun w => match p with Some c => Val c w | None => NullDeref w end.

(** Field assignments [prewarm->f = v]. *)
Definition set_prewarm_service v (p : PrewarmData) :=
  mkPrewarmData v (prewarm_context p) (prewarm_id p) (cleanup_id p) (current_state p).
Definition set_prewarm_context v (p : PrewarmData) :=
  mkPrewarmData (prewarm_service p) v (prewarm_id p) (cleanup_id p) (current_state p).
Definition set_prewarm_id v (p : PrewarmData) :=
  mkPrewarmData (prewarm_service p) (prewarm_context p) v (cleanup_id p) (current_state p).
Definition set_cleanup_id v (p : PrewarmData) :=
  mkPrewarmData (prewarm_service p) (prewarm_context p) (prewarm_id p) v (current_state p).
Definition set_current_state v (p : PrewarmData) :=
  mkPrewarmData (prewarm_service p) (prewarm_context p) (prewarm_id p) (cleanup_id p) v.

Definition empty (s : string) : bool := s =? "".

(** How one iteration of the [do ... while (true)] loop ends: [break] out of
    the [switch] or [continue] go on with the next request, [return] leaves
    the handler. *)
Inductive Flow := Next | Return.

(** How the handler ends. *)
Inductive Exit := NoMoreRequests | Returned.

Section Handler.

(** The answers of the [Context] objects: [oracle n] is the result of the
    [n]-th call (over all connections) of [initialize], [interpret] or
    [cleanup]. *)
Variable oracle : nat -> bool.

(** The captures of the lambda: whether [cache != nullptr], the connection
    [replayConn], and the [Context] created for it ([context.get()], not
    null past the check at the top of the handler). *)
Variable cache : bool.
Variable replayConn : Service.
Variable context : ContextPtr.

Definition ask : M bool :=
  fun w => Val (oracle (calls w)) (mkWorld (prewarm w) (S (calls w)) (trace w)).

Definition initialize (c : ContextPtr) (id : string) : M bool :=
  ok <- ask ;; emit (EInitialize c id ok) ;;; ret ok.

Definition interpret (c : ContextPtr) (flush : option bool) : M bool :=
  ok <- ask ;; emit (EInterpret c flush ok) ;;; ret ok.

Definition cleanup (c : ContextPtr) : M bool :=
  ok <- ask ;; emit (ECleanup c ok) ;;; ret ok.

(** [if (cache != nullptr) { c->prefetch(cache); }] *)
Definition prefetch_if_cache (c : ContextPtr) : M unit :=
  if cache then emit (EPrefetch c) else ret tt.

(** [prewarm->prewarm_context->], read afresh at every use as in the source. *)
Definition the_prewarm_context : M ContextPtr :=
  p <- get ;; deref (prewarm_context p).

(** The lambda [cleanup_state]. *)
Definition cleanup_state : M bool :=
  c <- the_prewarm_context ;;
  p <- get ;;
  ok <- initialize c (cleanup_id p) ;;
  if negb ok then ret false else
  (if cache then c <- the_prewarm_context ;; emit (EPrefetch c) else ret tt) ;;;
  c <- the_prewarm_context ;;
  ok <- interpret c None ;;
  if negb ok then ret false else
  c <- the_prewarm_context ;;
  ok <- cleanup c ;;
  if negb ok then ret false else
  modify (set_prewarm_id "") ;;;
  modify (set_cleanup_id "") ;;;
  modify (set_current_state "") ;;;
  modify (set_prewarm_context None) ;;;
  modify (set_prewarm_service None) ;;;
  ret true.

(** The lambda [prime_state]. *)
Definition prime_state (state cleanup : string) : M bool :=
  ok <- initialize context state ;;
  if negb ok then ret false else
  prefetch_if_cache context ;;;
  ok <- interpret context (Some false) ;;
  if negb ok then ret false else
  (if negb (empty cleanup) then
     modify (set_current_state state) ;;;
     modify (set_cleanup_id cleanup) ;;;
     modify (set_prewarm_id state) ;;;
     modify (set_prewarm_service (Some replayConn)) ;;;
     modify (set_prewarm_context (Some context))
   else ret tt) ;;;
  ret true.

(** [case kReplay], first part: getting into the state the replay depends
    on.  The results of both helpers are dropped, as in the source. *)
Definition enter_dependent_state (dependent_id : string) : M unit :=
  p <- get ;;
  if negb (current_state p =? dependent_id) then
    cleanup_state ;;;
    (if negb (dependent_id =? "") then prime_state dependent_id "" ;;; ret tt
     else ret tt)
  else ret tt.

(** [case kReplay], from [initialize(replay_id)] on. *)
Definition run_replay (replay_id : string) : M Flow :=
  ok <- initialize context replay_id ;;
  if negb ok then ret Next (* continue *) else
  prefetch_if_cache context ;;;
  interpret context None ;;;
  emit (ESendReplayFinished replayConn) ;;;
  ok <- cleanup context ;;
  if negb ok then ret Return else
  modify (set_current_state "") ;;;
  p <- get ;;
  match prewarm_service p with
  | Some s =>
      if negb (empty (prewarm_id p)) && negb (empty (cleanup_id p))
      then emit (EPrimeState s (prewarm_id p) (cleanup_id p)) ;;; ret Next
      else ret Next
  | None => ret Next
  end.

Definition on_replay (replay_id dependent_id : string) : M Flow :=
  enter_dependent_state dependent_id ;;; run_replay replay_id.

(** [case kPrewarm]. *)
Definition on_prewarm (prerun_id cleanup : string) : M Flow :=
  p <- get ;;
  if current_state p =? prerun_id then
    modify (set_cleanup_id cleanup) ;;; ret Next
  else
    p <- get ;;
    ok <- (if negb (current_state p =? "") then cleanup_state else ret true) ;;
    if negb ok then ret Return else
    ok <- prime_state prerun_id cleanup ;;
    if negb ok then ret Return else
    ret Next.

(** The body of the [switch]. *)
Definition handle (req : ReplayRequest) : M Flow :=
  match req with
  | kReplay replay_id dependent_id => on_replay replay_id dependent_id
  | kPrewarm prerun_id cleanup => on_prewarm prerun_id cleanup
  | REQ_NOT_SET => ret Next
  end.

(** The loop, over the requests [getReplayRequest()] will deliver; at the
    end of the list it delivers none and the loop is left by [break]. *)
Fixpoint serve (reqs : list ReplayRequest) : M Exit :=
  match reqs with
  | [] => ret NoMoreRequests
  | req :: rest =>
      f <- handle req ;;
      match f with
      | Next => serve rest
      | Return => ret Returned
      end
  end.

End Handler.

End Session.

(** ** Observations on worlds and traces *)

Module SessionSpec.
Import Session.

(** The number of acknowledgements [sendReplayFinished] in a trace. *)
Definition is_ack (e : Event) : bool :=
  match e with ESendReplayFinished _ => true | _ => false end.

Definition acks (t : list Event) : nat := List.length (filter is_ack t).

(** The number of [initialize] calls for a given id in a trace. *)
Definition is_initialize (id : string) (e : Event) : bool :=
  match e with EInitialize _ id' _ => id' =? id | _ => false end.

Definition initializes (id : string) (t : list Event) : nat :=
  List.length (filter (is_initialize id) t).

(** A failed [cleanup] that is not the last thing the handler did. *)
Definition failed_cleanup_then_more (t : list Event) : Prop :=
  exists pre c e post, t = pre ++ ECleanup c false :: e :: post.

(** [prewarm_id] and [cleanup_id] both empty or both non-empty. *)
Definition ids_paired (p : PrewarmData) : bool :=
  Bool.eqb (empty (prewarm_id p)) (empty (cleanup_id p)).

(** What the handler maintains when the ids of its [kPrewarm] requests are
    not empty: the ids are paired, and a non-empty [current_state] is the
    primed state. *)
Definition prewarm_inv (p : PrewarmData) : bool :=
  ids_paired p
  && (empty (current_state p) || (current_state p =? prewarm_id p)).

Definition nonempty_ids (req : ReplayRequest) : bool :=
  match req with
  | kPrewarm prerun_id cleanup => negb (empty prerun_id) && negb (empty cleanup)
  | _ => true
  end.

(** A complete pairing: target connection and both ids set. *)
Definition pairing_complete (p : PrewarmData) : bool :=
  match prewarm_service p with
  | Some _ => negb (empty (prewarm_id p)) && negb (empty (cleanup_id p))
  | None => false
  end.

(** A world in which connection [7], whose context is [9], has primed
    state [A] with clean-up [A_exit]. *)
Definition World_primed : World :=
  mkWorld (mkPrewarmData (Some 7) (Some 9) "A" "A_exit" "A") 0 [].

(** Contexts that always succeed, always fail, or fail at one call only. *)
Definition all_ok : nat -> bool := fun _ => true.
Definition none_ok : nat -> bool := fun _ => false.
Definition fails_at (k : nat) : nat -> bool := fun n => negb (Nat.eqb n k).

Section Observations.

Variable oracle : nat -> bool.
Variable cache : bool.
Variable replayConn : Service.
Variable context : ContextPtr.

(** The answer to the [k]-th call of a [Context] from world [w] on. *)
Definition answer (k : nat) (w : World) : bool := oracle (k + calls w).

(** The events of [if (cache != nullptr) c->prefetch(cache)]. *)
Definition prefetched (c : ContextPtr) : list Event :=
  if cache then [EPrefetch c] else [].

(** [w] after [n] more answers and the events [t]. *)
Definition advance (n : nat) (t : list Event) (p : PrewarmData) (w : World) :=
  mkWorld p (n + calls w) (trace w ++ t).

(** The instruction sent to the prewarm target at the end of a replay. *)
Definition prime_instruction (p : PrewarmData) : list Event :=
  match prewarm_service p with
  | Some s =>
      if pairing_complete p
      then [EPrimeState s (prewarm_id p) (cleanup_id p)] else []
  | None => []
  end.

(** The events of a replay up to the clean-up of its context. *)
Definition replayed (replay_id : string) (interpreted cleaned : bool) :=
  EInitialize context replay_id true :: prefetched context
  ++ [EInterpret context None interpreted;
      ESendReplayFinished replayConn;
      ECleanup context cleaned].

(** [w'] is [w] after some events none of which is an acknowledgement. *)
Definition quiet (w w' : World) : Prop :=
  exists t, trace w' = trace w ++ t /\ acks t = 0.

(** A [cleanup] whose result the handler checks fails while [req] is
    handled from [w]: the one that ends a replay, or the one in
    [cleanup_state] called for a [kPrewarm] request. *)
Definition fatal_cleanup (req : ReplayRequest) (w : World) : bool :=
  match req with
  | kReplay _ dependent_id =>
      match enter_dependent_state oracle cache replayConn context dependent_id w with
      | Val _ w1 => answer 0 w1 && negb (answer 2 w1)
      | NullDeref _ => false
      end
  | kPrewarm prerun_id _ =>
      negb (current_state (prewarm w) =? prerun_id)
      && negb (current_state (prewarm w) =? "")
      && match prewarm_context (prewarm w) with
         | Some _ => answer 0 w && answer 1 w && negb (answer 2 w)
         | None => false
         end
  | REQ_NOT_SET => false
  end.

(** The world in which a [kPrewarm] request that has to prime calls
    [prime_state]: [w] itself when nothing is loaded, else what a successful
    [cleanup_state] leaves. *)
Definition vacated (w w0 : World) : Prop :=
  if current_state (prewarm w) =? "" then w0 = w
  else cleanup_state oracle cache w = Val true w0.

(** The events of a successful [prime_state]. *)
Definition primed (state : string) : list Event :=
  EInitialize context state true :: prefetched context
  ++ [EInterpret context (Some false) true].

End Observations.

End SessionSpec.

(** ** [createCache] and [getTempOnDiskCachePath] *)

Module Cache.

(** The platforms for which this part of the file is compiled (everything
    under [#else  // TARGET_OS == GAPID_OS_ANDROID]). *)
Inductive TargetOS := GAPID_OS_LINUX | GAPID_OS_OSX | GAPID_OS_WINDOWS.

Definition linux_or_osx (os : TargetOS) : bool :=
  match os with
  | GAPID_OS_LINUX | GAPID_OS_OSX => true
  | GAPID_OS_WINDOWS => false
  end.

(** [struct Options::OnDiskCache]. *)
Record OnDiskCache := mkOnDiskCache {
  enabled : bool;
  cleanUp : bool;
  path : string
}.

(** What [createCache] asks of its surroundings: [getenv("TMPDIR")];
    whether [/tmp] is a directory; [mkdtemp] on a template ([None] is
    [nullptr]); whether [OnDiskResourceCache::create] returns an object;
    [memoryManager->getTopAddress()]. *)
Record Env := mkEnv {
  TMPDIR : option string;
  tmp_is_dir : bool;
  mkdtemp : string -> option string;
  OnDiskResourceCache_create : string -> bool -> bool;
  getTopAddress : nat
}.

(** The cache returned. *)
Inductive ResourceCache :=
| InMemoryResourceCache (size : nat)
| OnDiskResourceCache (cache_path : string) (cleanUpOnDiskCache : bool).

(** What the child of [fork()] captures. *)
Record MonitorArgs := mkMonitorArgs {
  onDiskCachePath : string;
  useTempCacheFolder : bool
}.

Definition getTempOnDiskCachePath (env : Env) : string :=
  let tmpDir :=
    match TMPDIR env with
    | Some d => Some d
    | None => if tmp_is_dir env then Some "/tmp" else None
    end in
  match tmpDir with
  | None => ""
  | Some d =>
      match mkdtemp env (d ++ "/gapir-cache.XXXXXX")%string with
      | None => ""
      | Some p => p
      end
  end.

(** The path and clean-up flag [createCache] works with once the empty
    path has been replaced by a temporary directory. *)
Definition resolved_path (env : Env) (opts : OnDiskCache) : string :=
  if Nat.eqb (String.length (path opts)) 0 then getTempOnDiskCachePath env
  else path opts.

Definition resolved_cleanUp (opts : OnDiskCache) : bool :=
  if Nat.eqb (String.length (path opts)) 0 then true else cleanUp opts.

(** [createCache]: the cache returned, and the monitor forked, if any. *)
Definition createCache (os : TargetOS) (env : Env) (opts : OnDiskCache)
  : ResourceCache * option MonitorArgs :=
  if linux_or_osx os then
    if negb (enabled opts) then
      (InMemoryResourceCache (getTopAddress env), None)
    else
      let onDiskCachePath0 := path opts in
      let cleanUpOnDiskCache0 := cleanUp opts in
      let useTemp := Nat.eqb (String.length onDiskCachePath0) 0 in
      let cleanUpOnDiskCache := if useTemp then true else cleanUpOnDiskCache0 in
      let onDiskCachePath :=
        if useTemp then getTempOnDiskCachePath env else onDiskCachePath0 in
      if Nat.eqb (String.length onDiskCachePath) 0 then
        (InMemoryResourceCache (getTopAddress env), None)
      else if negb (OnDiskResourceCache_create env onDiskCachePath cleanUpOnDiskCache) then
        (InMemoryResourceCache (getTopAddress env), None)
      else
        (OnDiskResourceCache onDiskCachePath cleanUpOnDiskCache,
         if cleanUpOnDiskCache || useTemp
         then Some (mkMonitorArgs onDiskCachePath useTemp)
         else None)
  else
    (InMemoryResourceCache (getTopAddress env), None).

End Cache.

(** ** The monitor process forked by [createCache] *)

Module Monitor.

(** The [typeflag] values [nftw] passes to its callback. *)
Inductive Typeflag :=
| FTW_F | FTW_D | FTW_DNR | FTW_DP | FTW_NS | FTW_SL | FTW_SLN.

Inductive Removal :=
| rmdir (fpath : string)
| unlink (fpath : string).

(** The lambda passed to [nftw]. *)
Definition remove_entry (fpath : string) (typeflag : Typeflag) : Removal :=
  match typeflag with
  | FTW_D => rmdir fpath
  | _ => unlink fpath
  end.

Inductive NftwFlag := FTW_DEPTH.

(** The calls of the child process, in order.  [Kill sig alive] is
    [kill(ppid, sig)], [alive] telling whether it returned [0]. *)
Inductive Event :=
| Kill (sig : nat) (alive : bool)
| Usleep (usec : N)
| Opendir (dir : string) (ok : bool)
| Nftw (dir : string) (fn : string -> Typeflag -> Removal)
       (nopenfd : nat) (flags : NftwFlag)
| Rmdir (dir : string)
| ResetOnDiskCache
| ExitProcess (status : nat).

Section Child.

(** [parent_alive n]: the [n]-th [kill(ppid, 0)] returns [0].
    [opendir_ok]: [opendir] returns a directory stream. *)
Variable parent_alive : nat -> bool.
Variable opendir_ok : bool.
Variable args : Cache.MonitorArgs.

(** [while (!kill(ppid, 0)) { usleep(500000); }], at most [fuel] polls.
    The boolean tells whether the loop was left. *)
Fixpoint wait_for_parent (fuel n : nat) : list Event * bool :=
  match fuel with
  | 0 => ([], false)
  | S fuel' =>
      if parent_alive n then
        let (t, left) := wait_for_parent fuel' (S n) in
        (Kill 0 true :: Usleep 500000%N :: t, left)
      else ([Kill 0 false], true)
  end.

(** The body of [if (dir != nullptr)]. *)
Definition delete_cache : list Event :=
  if Cache.useTempCacheFolder args then
    [Nftw (Cache.onDiskCachePath args) remove_entry 64 FTW_DEPTH;
     Rmdir (Cache.onDiskCachePath args)]
  else [ResetOnDiskCache].

(** After the loop. *)
Definition after_parent_exit : list Event :=
  Opendir (Cache.onDiskCachePath args) opendir_ok
  :: (if opendir_ok then delete_cache else [])
  ++ [ExitProcess 0].

(** The child, that is the body of [if (fork() == 0)]. *)
Definition monitor (fuel : nat) : list Event :=
  let (t, left) := wait_for_parent fuel 0 in
  if left then t ++ after_parent_exit else t.

End Child.

(** The events that start a deletion of the cache files. *)
Definition is_deletion (e : Event) : bool :=
  match e with
  | Nftw _ _ _ _ | ResetOnDiskCache => true
  | _ => false
  end.

(** The number of deletions started in a trace. *)
Definition deletions (t : list Event) : nat :=
  List.length (filter is_deletion t).

(** [k] rounds of the polling loop that found the parent alive. *)
Fixpoint waits (k : nat) : list Event :=
  match k with
  | 0 => []
  | S k' => Kill 0 true :: Usleep 500000%N :: waits k'
  end.

End Monitor.

(** ** Further observations on the session handler *)

Module SessionObs.
Import Session.

(** The events that reach a client: [sendReplayFinished] and [primeState]. *)
Definition is_sent (e : Event) : bool :=
  match e with
  | ESendReplayFinished _ | EPrimeState _ _ _ => true
  | _ => false
  end.

Definition sent (t : list Event) : list Event := filter is_sent t.

(** The [initialize] calls of a trace, whatever the id. *)
Definition is_any_initialize (e : Event) : bool :=
  match e with EInitialize _ _ _ => true | _ => false end.

Definition all_initializes (t : list Event) : nat :=
  List.length (filter is_any_initialize t).

(** The [kReplay] requests of a list. *)
Definition is_replay (req : ReplayRequest) : bool :=
  match req with kReplay _ _ => true | _ => false end.

Definition replays (reqs : list ReplayRequest) : nat :=
  List.length (filter is_replay reqs).

Definition is_set {A} (p : option A) : bool :=
  match p with Some _ => true | None => false end.

(** The two target pointers are null together, and a loaded state is the
    primed one and has a target. *)
Definition registered (p : PrewarmData) : bool :=
  Bool.eqb (is_set (prewarm_service p)) (is_set (prewarm_context p))
  && (empty (current_state p)
      || (is_set (prewarm_context p) && (current_state p =? prewarm_id p))).

Definition is_null_deref {A} (r : Res A) : bool :=
  match r with NullDeref _ => true | Val _ _ => false end.

(** The part of [PrewarmData] that pairs a primed state with its target. *)
Definition pairing (p : PrewarmData) :=
  (prewarm_service p, prewarm_context p, prewarm_id p, cleanup_id p).

(** [w'] is [w] after events none of which reaches a client. *)
Definition silent (w w' : World) : Prop :=
  sent (trace w') = sent (trace w).

End SessionObs.

(** ** [replayArchive] *)

Module Archive.
Import Session.

Inductive ExitCode := EXIT_SUCCESS | EXIT_FAILURE.

Section ReplayArchive.

(** The answers of the context, the [ArchiveReplayService] the
    acknowledgement goes to, and what [Context::create] returned; unlike
    the handler of [Setup], [replayArchive] does not test it. *)
Variable oracle : nat -> bool.
Variable replayArchiveService : Service.
Variable context : option ContextPtr.

(** [replayArchive], from [context->initialize("payload")] on. *)
Definition replayArchive : M ExitCode :=
  c <- deref context ;;
  ok <- initialize oracle c "payload" ;;
  if negb ok then ret EXIT_FAILURE else
  c <- deref context ;;
  ok <- interpret oracle c None ;;
  emit (ESendReplayFinished replayArchiveService) ;;;
  c <- deref context ;;
  cleaned <- cleanup oracle c ;;
  if negb cleaned then ret EXIT_FAILURE else
  ret (if ok then EXIT_SUCCESS else EXIT_FAILURE).

End ReplayArchive.

End Archive.

(** ** [Options::Parse] and [main] on desktop *)

Module CommandLine.

(** [enum ReplayMode]. *)
Inductive ReplayMode := kUnknown | kConflict | kReplayServer | kReplayArchive.

Definition ReplayMode_eqb (a b : ReplayMode) : bool :=
  match a, b with
  | kUnknown, kUnknown | kConflict, kConflict
  | kReplayServer, kReplayServer | kReplayArchive, kReplayArchive => true
  | _, _ => false
  end.

(** The values [--log-level] chooses from. *)
Inductive LogLevel :=
| LOG_LEVEL_FATAL | LOG_LEVEL_ERROR | LOG_LEVEL_WARNING
| LOG_LEVEL_INFO | LOG_LEVEL_DEBUG | LOG_LEVEL_VERBOSE.

(** [struct Options]; a null [const char*] is [None]. *)
Record Options := mkOptions {
  logLevel : LogLevel;
  logPath : string;
  mode : ReplayMode;
  waitForDebugger : bool;
  cachePath : option string;
  portArgStr : string;
  authTokenFile : option string;
  idleTimeoutSec : Z;
  replayArchive : option string;
  postbackDirectory : string;
  version : bool;
  help : bool;
  onDiskCacheOptions : Cache.OnDiskCache
}.

Definition set_logLevel v (o : Options) :=
  mkOptions v (logPath o) (mode o) (waitForDebugger o) (cachePath o)
            (portArgStr o) (authTokenFile o) (idleTimeoutSec o)
            (replayArchive o) (postbackDirectory o) (version o) (help o)
            (onDiskCacheOptions o).
Definition set_logPath v (o : Options) :=
  mkOptions (logLevel o) v (mode o) (waitForDebugger o) (cachePath o)
            (portArgStr o) (authTokenFile o) (idleTimeoutSec o)
            (replayArchive o) (postbackDirectory o) (version o) (help o)
            (onDiskCacheOptions o).
Definition set_mode v (o : Options) :=
  mkOptions (logLevel o) (logPath o) v (waitForDebugger o) (cachePath o)
            (portArgStr o) (authTokenFile o) (idleTimeoutSec o)
            (replayArchive o) (postbackDirectory o) (version o) (help o)
            (onDiskCacheOptions o).
Definition set_waitForDebugger v (o : Options) :=
  mkOptions (logLevel o) (logPath o) (mode o) v (cachePath o)
            (portArgStr o) (authTokenFile o) (idleTimeoutSec o)
            (replayArchive o) (postbackDirectory o) (version o) (help o)
            (onDiskCacheOptions o).
Definition set_portArgStr v (o : Options) :=
  mkOptions (logLevel o) (logPath o) (mode o) (waitForDebugger o) (cachePath o)
            v (authTokenFile o) (idleTimeoutSec o)
            (replayArchive o) (postbackDirectory o) (version o) (help o)
            (onDiskCacheOptions o).
Definition set_authTokenFile v (o : Options) :=
  mkOptions (logLevel o) (logPath o) (mode o) (waitForDebugger o) (cachePath o)
            (portArgStr o) v (idleTimeoutSec o)
            (replayArchive o) (postbackDirectory o) (version o) (help o)
            (onDiskCacheOptions o).
Definition set_idleTimeoutSec v (o : Options) :=
  mkOptions (logLevel o) (logPath o) (mode o) (waitForDebugger o) (cachePath o)
            (portArgStr o) (authTokenFile o) v
            (replayArchive o) (postbackDirectory o) (version o) (help o)
            (onDiskCacheOptions o).
Definition set_replayArchive v (o : Options) :=
  mkOptions (logLevel o) (logPath o) (mode o) (waitForDebugger o) (cachePath o)
            (portArgStr o) (authTokenFile o) (idleTimeoutSec o)
            v (postbackDirectory o) (version o) (help o)
            (onDiskCacheOptions o).
Definition set_postbackDirectory v (o : Options) :=
  mkOptions (logLevel o) (logPath o) (mode o) (waitForDebugger o) (cachePath o)
            (portArgStr o) (authTokenFile o) (idleTimeoutSec o)
            (replayArchive o) v (version o) (help o)
            (onDiskCacheOptions o).
Definition set_version v (o : Options) :=
  mkOptions (logLevel o) (logPath o) (mode o) (waitForDebugger o) (cachePath o)
            (portArgStr o) (authTokenFile o) (idleTimeoutSec o)
            (replayArchive o) (postbackDirectory o) v (help o)
            (onDiskCacheOptions o).
Definition set_help v (o : Options) :=
  mkOptions (logLevel o) (logPath o) (mode o) (waitForDebugger o) (cachePath o)
            (portArgStr o) (authTokenFile o) (idleTimeoutSec o)
            (replayArchive o) (postbackDirectory o) (version o) v
            (onDiskCacheOptions o).
Definition set_onDiskCacheOptions v (o : Options) :=
  mkOptions (logLevel o) (logPath o) (mode o) (waitForDebugger o) (cachePath o)
            (portArgStr o) (authTokenFile o) (idleTimeoutSec o)
            (replayArchive o) (postbackDirectory o) (version o) (help o)
            v.

(** [opts.onDiskCacheOptions.f = v]. *)
Definition set_enabled v (c : Cache.OnDiskCache) :=
  Cache.mkOnDiskCache v (Cache.cleanUp c) (Cache.path c).
Definition set_cleanUp v (c : Cache.OnDiskCache) :=
  Cache.mkOnDiskCache (Cache.enabled c) v (Cache.path c).
Definition set_path v (c : Cache.OnDiskCache) :=
  Cache.mkOnDiskCache (Cache.enabled c) (Cache.cleanUp c) v.

(** [Options::SetMode]. *)
Definition SetMode (m : ReplayMode) (o : Options) : Options :=
  let m' :=
    if negb (ReplayMode_eqb (mode o) kUnknown)
       && negb (ReplayMode_eqb (mode o) m)
    then kConflict else m in
  set_mode m' o.

(** [Parse] either returns the options or stops in [GAPID_FATAL], which
    logs its message and aborts the process. *)
Inductive Parsed :=
| Ok (o : Options)
| Fatal (msg : string).

(** The lines [PrintHelp] prints, each without its final newline. *)
Definition PrintHelp : list string :=
  ["gapir: gapir is a VM for the graphics api debugger system";
   "Usage: gapir [args]";
   "Args:";
   "  --replay-archive string";
   "    Path to an archive directory to replay, and then exit";
   "  --postback-dir string";
   "    Path to a directory to use for outputs of the replay-archive";
   "  --auth-token-file string";
   "    Path to the a file containing the authentication token";
   "  --enable-disk-cache";
   "    If set, then gapir will create and use a disk cache for resources.";
   "  --disk-cache-path string";
   "    Path to a directory that will be used for the disk cache.";
   "    If it contains an existing cache, that will be used";
   "    If unset, the disk cache will default to a temp directory";
   "  --cleanup-disk-cache";
   "    If set, the disk cache will be deleted when gapir exits.";
   "  --port int";
   "    The port to use when listening for connections";
   "  --log-level <F|E|W|I|D|V>";
   "    Sets the log level for gapir.";
   "  --log string";
   "    Sets the path for the log file";
   "  --idle-timeout-sec int";
   "    Timeout if gapir has not received communication from the server (default infinity)";
   "  --wait-for-debugger";
   "    Causes gapir to pause on init, and wait for a debugger to connect";
   "   -h,-help,--help";
   "    Prints this elp text and exits."].

Section Parse.

(** The compile-time default [LOG_LEVEL], and [atoi] of the C library. *)
Variable LOG_LEVEL : LogLevel.
Variable atoi : string -> Z.

(** The default member initialisers of [Options]. *)
Definition Options_init : Options :=
  mkOptions LOG_LEVEL "logs/gapir.log" kUnknown false None "0" None 0%Z
            None "" false false (Cache.mkOnDiskCache false false "").

(** [switch (argv[++i][0])] of [--log-level]; the first character of an
    empty argument is the terminating [NUL]. *)
Definition log_level_of (v : string) : option LogLevel :=
  match v with
  | String "F" _ => Some LOG_LEVEL_FATAL
  | String "E" _ => Some LOG_LEVEL_ERROR
  | String "W" _ => Some LOG_LEVEL_WARNING
  | String "I" _ => Some LOG_LEVEL_INFO
  | String "D" _ => Some LOG_LEVEL_DEBUG
  | String "V" _ => Some LOG_LEVEL_VERBOSE
  | _ => None
  end.

(** The body of the [for] loop of [Parse], over [argv[i..argc)]. *)
Fixpoint Parse_from (args : list string) (opts : Options) : Parsed :=
  match args with
  | [] => Ok opts
  | a :: rest =>
      if a =? "--replay-archive" then
        let opts := SetMode kReplayArchive opts in
        match rest with
        | [] => Fatal "Usage: --replay-archive <archive-directory>"
        | v :: rest' => Parse_from rest' (set_replayArchive (Some v) opts)
        end
      else if a =? "--postback-dir" then
        let opts := SetMode kReplayArchive opts in
        match rest with
        | [] => Fatal "Usage: --postback-dir <output-directory>"
        | v :: rest' => Parse_from rest' (set_postbackDirectory v opts)
        end
      else if a =? "--auth-token-file" then
        let opts := SetMode kReplayServer opts in
        match rest with
        | [] => Fatal "Usage: --auth-token-file <token-string>"
        | v :: rest' => Parse_from rest' (set_authTokenFile (Some v) opts)
        end
      else if a =? "--enable-disk-cache" then
        let opts := SetMode kReplayServer opts in
        Parse_from rest
          (set_onDiskCacheOptions
             (set_enabled true (onDiskCacheOptions opts)) opts)
      else if a =? "--disk-cache-path" then
        let opts := SetMode kReplayServer opts in
        match rest with
        | [] => Fatal "Usage: --disk-cache-path <cache-directory>"
        | v :: rest' =>
            Parse_from rest'
              (set_onDiskCacheOptions
                 (set_path v (onDiskCacheOptions opts)) opts)
        end
      else if a =? "--cleanup-on-disk-cache" then
        Parse_from rest
          (set_onDiskCacheOptions
             (set_cleanUp true (onDiskCacheOptions opts)) opts)
      else if a =? "--port" then
        let opts := SetMode kReplayServer opts in
        match rest with
        | [] => Fatal "Usage: --port <port_num>"
        | v :: rest' => Parse_from rest' (set_portArgStr v opts)
        end
      else if a =? "--log-level" then
        match rest with
        | [] => Fatal "Usage: --log-level <F|E|W|I|D|V>"
        | v :: rest' =>
            match log_level_of v with
            | Some l => Parse_from rest' (set_logLevel l opts)
            | None => Fatal "Usage: --log-level <F|E|W|I|D|V>"
            end
        end
      else if a =? "--log" then
        match rest with
        | [] => Fatal "Usage: --log <log-file-path>"
        | v :: rest' => Parse_from rest' (set_logPath v opts)
        end
      else if a =? "--idle-timeout-sec" then
        let opts := SetMode kReplayServer opts in
        match rest with
        | [] => Fatal "Usage: --idle-timeout-sec <timeout in seconds>"
        | v :: rest' => Parse_from rest' (set_idleTimeoutSec (atoi v) opts)
        end
      else if a =? "--wait-for-debugger" then
        Parse_from rest (set_waitForDebugger true opts)
      else if a =? "--version" then
        Parse_from rest (set_version true opts)
      else if (a =? "-h") || (a =? "-help") || (a =? "--help") then
        Parse_from rest (set_help true opts)
      else Fatal ("Unknown argument: " ++ a)
  end.

(** [Options::Parse(argc, argv)]: [argv[0]] is skipped. *)
Definition Parse (argv : list string) : Parsed :=
  Parse_from (tl argv) Options_init.

(** What [main] goes on to do once the arguments are parsed. *)
Inductive Action :=
| HelpPrinted (lines : list string)
| VersionPrinted
| ArgumentConflicts
| RunReplayArchive (opts : Options)
| RunStartServer (opts : Options).

(** The exit status [main] returns without running anything, if any. *)
Definition exit_code (a : Action) : option Archive.ExitCode :=
  match a with
  | HelpPrinted _ | VersionPrinted => Some Archive.EXIT_SUCCESS
  | ArgumentConflicts => Some Archive.EXIT_FAILURE
  | RunReplayArchive _ | RunStartServer _ => None
  end.

(** [main] after [Parse]: whether it waits for a debugger, and what it
    does then. *)
Definition dispatch (opts : Options) : bool * Action :=
  (waitForDebugger opts,
   if help opts then HelpPrinted PrintHelp
   else if version opts then VersionPrinted
   else if ReplayMode_eqb (mode opts) kConflict then ArgumentConflicts
   else if ReplayMode_eqb (mode opts) kReplayArchive then RunReplayArchive opts
   else RunStartServer opts).

Inductive MainResult :=
| Aborted (msg : string)
| Dispatched (waited : bool) (a : Action).

Definition main (argv : list string) : MainResult :=
  match Parse argv with
  | Fatal msg => Aborted msg
  | Ok opts => let (w, a) := dispatch opts in Dispatched w a
  end.

End Parse.

(** The order in which [SetMode] moves the mode: from [kUnknown] to one of
    the two kinds, and from there to [kConflict]. *)
Definition mode_le (a b : ReplayMode) : bool :=
  match a, b with
  | kUnknown, _ | _, kConflict => true
  | kReplayServer, kReplayServer | kReplayArchive, kReplayArchive => true
  | _, _ => false
  end.

(** The arguments that take the next argument as their value. *)
Definition value_flags : list string :=
  ["--replay-archive"; "--postback-dir"; "--auth-token-file";
   "--disk-cache-path"; "--port"; "--log-level"; "--log";
   "--idle-timeout-sec"].

Definition is_ok (r : Parsed) : bool :=
  match r with Ok _ => true | Fatal _ => false end.

(** The options the help text names: the lines that start with two spaces
    and a dash, up to the first space after the name. *)
Fixpoint word (s : string) : string :=
  match s with
  | EmptyString => EmptyString
  | String c s' => if Ascii.eqb c " " then EmptyString else String c (word s')
  end.

Definition documented_option (line : string) : option string :=
  match line with
  | String " " (String " " (String "-" rest)) => Some (word (String "-" rest))
  | _ => None
  end.

Fixpoint documented_options (lines : list string) : list string :=
  match lines with
  | [] => []
  | l :: ls =>
      match documented_option l with
      | Some f => f :: documented_options ls
      | None => documented_options ls
      end
  end.

End CommandLine.

(** ** [startServer] up to the message that announces the port *)

Module Startup.
Import CommandLine.

(** An open stream, by what the calls [startServer] makes on it return:
    whether [fseek(file, 0, SEEK_END)] is [0]; the value [ftell] gives to
    [size_t size], a failed [ftell] giving [SIZE_MAX]; and the bytes [fread]
    stores, whose number is its result. *)
Record FILE := mkFILE {
  fseek_end : bool;
  ftell : nat;
  fread : list ascii
}.

(** [fopen(path, "rb")] ([None] is [nullptr]);
    [SocketConnection::getFreePort], a [uint32_t]; and what [std::vector]
    depends on: the largest [size_t], [max_size()] of a vector of [char],
    and whether the allocator provides a given number of bytes. *)
Record Env := mkEnv {
  fopen : string -> option FILE;
  getFreePort : nat;
  SIZE_MAX : N;
  max_size : N;
  allocates : N -> bool
}.

Definition NUL : ascii := Ascii.zero.
Definition newline : string := String (ascii_of_nat 10) EmptyString.

(** [fread(&buf[0], 1, n, file)]: the bytes read replace the first bytes
    of the buffer. *)
Definition overwrite (data buf : list ascii) : list ascii :=
  data ++ skipn (List.length data) buf.

(** [std::to_string] of an unsigned number. *)
Definition to_string (n : nat) : string :=
  DecimalString.NilZero.string_of_uint (Nat.to_uint n).

(** The exceptions [std::vector::resize] throws; nothing in [startServer]
    or [main] catches them, so they end the process in [std::terminate]. *)
Inductive Exception := length_error | bad_alloc.

(** [size + 1] in [size_t]: it wraps to [0] at [SIZE_MAX]. *)
Definition size_plus_one (env : Env) (size : nat) : N :=
  if N.eqb (N.of_nat size) (SIZE_MAX env) then 0%N
  else (N.of_nat size + 1)%N.

(** [authToken.resize(size + 1, 0)] on the empty vector: it throws, or
    leaves the vector with that many [NUL] bytes. *)
Definition resize (env : Env) (n : N) : Exception + list ascii :=
  if N.ltb (max_size env) n then inl length_error
  else if negb (N.eqb n 0) && negb (allocates env n) then inl bad_alloc
  else inr (repeat NUL (N.to_nat n)).

(** What the first block of [startServer] comes to: [GAPID_FATAL], an
    exception nobody catches, [&authToken[0]] on an empty vector, or the
    vector [authToken]. *)
Inductive TokenRead :=
| TokenFatal (msg : string)
| TokenThrows (e : Exception)
| TokenUndefined
| TokenVector (authToken : list ascii).

(** [startServer] either stops in [GAPID_FATAL], or in [std::terminate],
    or has left the defined behaviour of C++, or gets as far as the message
    on [stdout]: the token given to [Setup] ([None] is [nullptr]), the URI
    the server is started at, the cache with the monitor forked for it, and
    the text printed. *)
Inductive Started :=
| Died (msg : string)
| Terminated (e : Exception)
| Undefined
| Bound (authToken : option (list ascii)) (uri : string)
        (cache : Cache.ResourceCache * option Cache.MonitorArgs)
        (stdout : string).

(** The first block of [startServer]: the vector [authToken]. *)
Definition read_auth_token (env : Env) (opts : Options) : TokenRead :=
  match authTokenFile opts with
  | None => TokenVector []
  | Some name =>
      match fopen env name with
      | None => TokenFatal ("Unable to open auth-token file: " ++ name)%string
      | Some file =>
          if negb (fseek_end file) then
            TokenFatal
              ("Unable to get length of auth-token file: " ++ name)%string
          else
            let size := ftell file in
            match resize env (size_plus_one env size) with
            | inl e => TokenThrows e
            | inr [] => TokenUndefined
            | inr authToken =>
                if negb (Nat.eqb (List.length (fread file)) size) then
                  TokenFatal
                    ("Unable to read auth-token file: " ++ name)%string
                else TokenVector (overwrite (fread file) authToken)
            end
      end
  end.

(** The port the server listens on, as a string. *)
Definition choose_port (env : Env) (opts : Options) : string + string :=
  if portArgStr opts =? "0" then
    if Nat.eqb (getFreePort env) 0 then
      inl "Failed to find a free port for hostname: '127.0.0.1'"
    else inr (to_string (getFreePort env))
  else inr (portArgStr opts).

Definition startServer (os : Cache.TargetOS) (cenv : Cache.Env) (env : Env)
                       (opts : Options) : Started :=
  match read_auth_token env opts with
  | TokenFatal msg => Died msg
  | TokenThrows e => Terminated e
  | TokenUndefined => Undefined
  | TokenVector authToken =>
      match choose_port env opts with
      | inl msg => Died msg
      | inr portStr =>
          let uri := ("127.0.0.1" ++ ":" ++ portStr)%string in
          let cache := Cache.createCache os cenv (onDiskCacheOptions opts) in
          Bound (if Nat.ltb 0 (List.length authToken)
                 then Some authToken else None)
                uri cache
                ("Bound on port '" ++ portStr ++ "'" ++ newline)%string
      end
  end.

(** The platforms the desktop build targets: 64-bit [size_t], and
    [max_size()] the largest [ptrdiff_t]. *)
Definition SIZE_MAX_LP64 : N := 18446744073709551615%N.
Definition max_size_LP64 : N := 9223372036854775807%N.

(** A file that holds [bytes], read in full. *)
Definition regular_file (bytes : list ascii) : FILE :=
  mkFILE true (List.length bytes) bytes.

End Startup.

(** ** The main loop of [android_main] *)

Module AndroidMain.

(** One [ALooper_pollAll] that returned an event: whether it came with a
    source to process, and whether [app->destroyRequested] is set once it
    is processed. *)
Record Poll := mkPoll {
  has_source : bool;
  destroyRequested : bool
}.

(** One turn of the outer loop: the polls that return an event before one
    times out, and [serverIsDone] as read after them. *)
Record Turn := mkTurn {
  polls : list Poll;
  serverIsDone : bool
}.

Inductive Event :=
| Process
| Shutdown
| ANativeActivity_finish
| Join
| Unlink.

(** The inner [while (ALooper_pollAll(...) >= 0)]: the events, and whether
    [alive] is still [true] when it is left. *)
Fixpoint poll_all (ps : list Poll) : list Event * bool :=
  match ps with
  | [] => ([], true)
  | p :: ps' =>
      let processed := if has_source p then [Process] else [] in
      if destroyRequested p then (processed ++ [Shutdown], false)
      else let (t, alive) := poll_all ps' in (processed ++ t, alive)
  end.

(** [while (alive)], from the values of [finishing]; [None] when the turns
    given are used up with [alive] still [true]. *)
Fixpoint main_loop (turns : list Turn) (finishing : bool)
  : list Event * option bool :=
  match turns with
  | [] => ([], None)
  | turn :: turns' =>
      let (t, alive) := poll_all (polls turn) in
      let finish := serverIsDone turn && negb finishing in
      let t := t ++ (if finish then [ANativeActivity_finish] else []) in
      let finishing := if finish then true else finishing in
      if alive then
        let (t', r) := main_loop turns' finishing in (t ++ t', r)
      else (t, Some finishing)
  end.

(** [android_main] from the loop on: the final clean-up comes once the
    loop is left. *)
Definition android_main (turns : list Turn) : list Event :=
  let (t, r) := main_loop turns false in
  match r with
  | Some _ => t ++ [Join; Unlink]
  | None => t
  end.

Definition count (e : Event) (t : list Event) : nat :=
  List.length
    (filter (fun x => match e, x with
                      | Process, Process | Shutdown, Shutdown
                      | ANativeActivity_finish, ANativeActivity_finish
                      | Join, Join | Unlink, Unlink => true
                      | _, _ => false
                      end) t).

Definition destroy_requested (turn : Turn) : bool :=
  existsb destroyRequested (polls turn).

End AndroidMain.

(** ** The deletion of the monitor on a directory tree *)

Module CacheTree.
Import Monitor.

(** What the cache directory holds: regular files and directories. *)
#[local] Set Warnings "-register-all".
Inductive Entry :=
| File (name : string)
| Directory (name : string) (entries : list Entry).

Definition entry_name (e : Entry) : string :=
  match e with File n => n | Directory n _ => n end.

Definition is_file (e : Entry) : bool :=
  match e with File _ => true | Directory _ _ => false end.

(** [unlink] and [rmdir] on the entry they name: the value returned and
    what is left of the entry.  [unlink] removes a file and fails on a
    directory ([EISDIR]); [rmdir] removes an empty directory and fails on a
    directory that is not empty ([ENOTEMPTY]) and on a file ([ENOTDIR]). *)
Definition perform (r : Removal) (e : Entry) : Z * option Entry :=
  match r, e with
  | unlink _, File _ => (0%Z, None)
  | unlink _, Directory _ _ => ((-1)%Z, Some e)
  | rmdir _, Directory _ [] => (0%Z, None)
  | rmdir _, Directory _ (_ :: _) => ((-1)%Z, Some e)
  | rmdir _, File _ => ((-1)%Z, Some e)
  end.

(** One call of the function given to [nftw]. *)
Record Call := mkCall {
  called_on : string;
  flag : Typeflag;
  did : Removal;
  returned : Z
}.

Definition keep (e : option Entry) (es : list Entry) : list Entry :=
  match e with Some x => x :: es | None => es end.

(** [nftw(fpath, fn, 64, FTW_DEPTH)] on the tree at [fpath]: the entries
    of a directory are visited before the directory, in the order given; a
    file is passed with [FTW_F] and a directory, its entries done, with
    [FTW_DP]; the walk stops at the first call that does not return [0] and
    returns its value.  The result is the calls, the value returned, and
    what is left of the tree. *)
Fixpoint nftw_depth (fn : string -> Typeflag -> Removal) (fpath : string)
                    (e : Entry) : list Call * Z * option Entry :=
  match e with
  | File _ =>
      let r := fn fpath FTW_F in
      let (ret, e') := perform r e in
      ([mkCall fpath FTW_F r ret], ret, e')
  | Directory name es =>
      let fix walk (es : list Entry) : list Call * Z * list Entry :=
        match es with
        | [] => ([], 0%Z, [])
        | x :: xs =>
            let '(c, ret, x') :=
              nftw_depth fn (fpath ++ "/" ++ entry_name x)%string x in
            if Z.eqb ret 0 then
              let '(c', ret', xs') := walk xs in
              (c ++ c', ret', keep x' xs')
            else (c, ret, keep x' xs)
        end in
      let '(c, ret, es') := walk es in
      if Z.eqb ret 0 then
        let r := fn fpath FTW_DP in
        let (ret', e') := perform r (Directory name es') in
        (c ++ [mkCall fpath FTW_DP r ret'], ret', e')
      else (c, ret, Some (Directory name es'))
  end.

(** The walk over the entries of the directory at [fpath]. *)
Fixpoint nftw_entries (fn : string -> Typeflag -> Removal) (fpath : string)
                      (es : list Entry) : list Call * Z * list Entry :=
  match es with
  | [] => ([], 0%Z, [])
  | x :: xs =>
      let '(c, ret, x') :=
        nftw_depth fn (fpath ++ "/" ++ entry_name x)%string x in
      if Z.eqb ret 0 then
        let '(c', ret', xs') := nftw_entries fn fpath xs in
        (c ++ c', ret', keep x' xs')
      else (c, ret, keep x' xs)
  end.

(** What a call of the monitor does to the tree at [onDiskCachePath]
    ([None] when it is gone); the calls that remove nothing there, and the
    destructor of the cache, whose code is elsewhere, leave it. *)
Definition run_event (ev : Event) (fs : option Entry) : option Entry :=
  match ev, fs with
  | Nftw dir fn _ FTW_DEPTH, Some root => snd (nftw_depth fn dir root)
  | Rmdir dir, Some root => snd (perform (rmdir dir) root)
  | _, _ => fs
  end.

Definition run_events (evs : list Event) (fs : option Entry) : option Entry :=
  fold_left (fun fs ev => run_event ev fs) evs fs.

End CacheTree.

(** ** Facts about the session handler *)

Module SessionFacts.
Import Session SessionSpec.

Section Facts.

Variable oracle : nat -> bool.
Variable cache : bool.
Variable replayConn : Service.
Variable context : ContextPtr.

Local Abbreviation cleanup_state := (cleanup_state oracle cache).
Local Abbreviation prime_state := (prime_state oracle cache replayConn context).
Local Abbreviation enter_dependent_state :=
  (enter_dependent_state oracle cache replayConn context).
Local Abbreviation run_replay := (run_replay oracle cache replayConn context).
Local Abbreviation handle := (handle oracle cache replayConn context).
Local Abbreviation serve := (serve oracle cache replayConn context).
Local Abbreviation answer := (answer oracle).
Local Abbreviation prefetched := (prefetched cache).
Local Abbreviation replayed := (replayed cache replayConn context).
Local Abbreviation primed := (primed cache context).
Local Abbreviation fatal_cleanup :=
  (fatal_cleanup oracle cache replayConn context).
Local Abbreviation vacated := (vacated oracle cache).

Ltac run :=
  cbv [Session.cleanup_state Session.prime_state Session.enter_dependent_state
       Session.run_replay Session.on_replay Session.on_prewarm Session.handle
       Session.initialize Session.interpret Session.cleanup
       Session.prefetch_if_cache Session.the_prewarm_context Session.ask
       Session.emit Session.modify Session.get Session.deref Session.bind
       Session.ret SessionSpec.answer advance SessionSpec.prefetched];
  cbn [prewarm calls trace prewarm_service prewarm_context prewarm_id
       cleanup_id current_state negb Nat.add
       set_prewarm_service set_prewarm_context set_prewarm_id set_cleanup_id
       set_current_state].

Ltac norm := rewrite <- ?app_assoc; cbn [app].

Lemma cleanup_state_null w :
  prewarm_context (prewarm w) = None -> cleanup_state w = NullDeref w.
Proof. intros H. run. rewrite H. reflexivity. Qed.

Lemma cleanup_state_eq w c :
  prewarm_context (prewarm w) = Some c ->
  cleanup_state w =
  let i := EInitialize c (cleanup_id (prewarm w)) in
  if answer 0 w then
    if answer 1 w then
      if answer 2 w then
        Val true (advance 3 (i true :: prefetched c
                               ++ [EInterpret c None true; ECleanup c true])
                          PrewarmData_init w)
      else
        Val false (advance 3 (i true :: prefetched c
                                ++ [EInterpret c None true; ECleanup c false])
                           (prewarm w) w)
    else
      Val false (advance 2 (i true :: prefetched c ++ [EInterpret c None false])
                         (prewarm w) w)
  else Val false (advance 1 [i false] (prewarm w) w).
Proof.
  destruct w as [[sv cx pid cid cs] n t]; cbn; intros ->. run.
  destruct (oracle n); run; [|reflexivity].
  destruct cache; run.
  all: destruct (oracle (S n)); run; try (norm; reflexivity).
  all: destruct (oracle (S (S n))); run; norm; reflexivity.
Qed.

Lemma prime_state_eq w state cl :
  prime_state state cl w =
  let i := EInitialize context state in
  if answer 0 w then
    if answer 1 w then
      Val true (advance 2 (i true :: prefetched context
                             ++ [EInterpret context (Some false) true])
                        (if negb (empty cl)
                         then mkPrewarmData (Some replayConn) (Some context)
                                            state cl state
                         else prewarm w) w)
    else
      Val false (advance 2 (i true :: prefetched context
                              ++ [EInterpret context (Some false) false])
                         (prewarm w) w)
  else Val false (advance 1 [i false] (prewarm w) w).
Proof.
  destruct w as [[sv cx pid cid cs] n t]. run.
  destruct (oracle n); run; [|reflexivity].
  destruct cache; run.
  all: destruct (oracle (S n)); run; try (norm; reflexivity).
  all: destruct (empty cl); run; norm; reflexivity.
Qed.

Lemma run_replay_eq w replay_id :
  run_replay replay_id w =
  if answer 0 w then
    if answer 2 w then
      Val Next (advance 3 (replayed replay_id (answer 1 w) true
                             ++ prime_instruction (prewarm w))
                        (set_current_state "" (prewarm w)) w)
    else
      Val Return (advance 3 (replayed replay_id (answer 1 w) false)
                          (prewarm w) w)
  else Val Next (advance 1 [EInitialize context replay_id false] (prewarm w) w).
Proof.
  destruct w as [[sv cx pid cid cs] n t].
  unfold replayed, prime_instruction, pairing_complete. run.
  destruct (oracle n); run; [|reflexivity].
  destruct cache; run.
  all: destruct (oracle (S (S n))); run; try (norm; reflexivity).
  all: destruct sv; run; try (norm; reflexivity).
  all: destruct (negb (empty pid) && negb (empty cid)); run; norm; reflexivity.
Qed.

Lemma handle_replay_eq w replay_id dependent_id :
  handle (kReplay replay_id dependent_id) w =
  match enter_dependent_state dependent_id w with
  | Val _ w1 => run_replay replay_id w1
  | NullDeref w1 => NullDeref w1
  end.
Proof. reflexivity. Qed.

(** *** Traces without acknowledgement *)

Lemma acks_app t u : acks (t ++ u) = acks t + acks u.
Proof. unfold acks. rewrite filter_app, length_app. reflexivity. Qed.

Lemma acks_prefetched c : acks (prefetched c) = 0.
Proof. unfold prefetched. destruct cache; reflexivity. Qed.

Lemma quiet_refl w : quiet w w.
Proof. exists []. split; [symmetry; apply app_nil_r | reflexivity]. Qed.

Lemma quiet_trans w1 w2 w3 : quiet w1 w2 -> quiet w2 w3 -> quiet w1 w3.
Proof.
  intros [t [Ht At]] [u [Hu Au]]. exists (t ++ u). split.
  - rewrite Hu, Ht, app_assoc. reflexivity.
  - rewrite acks_app, At, Au. reflexivity.
Qed.

Lemma quiet_advance n t p w : acks t = 0 -> quiet w (advance n t p w).
Proof. intros H. exists t. split; [reflexivity | exact H]. Qed.

Lemma quiet_acks w w' : quiet w w' -> acks (trace w') = acks (trace w).
Proof. intros [t [-> At]]. rewrite acks_app, At. lia. Qed.

Lemma acks_cons e t : acks (e :: t) = (if is_ack e then 1 else 0) + acks t.
Proof. unfold acks. cbn. destruct (is_ack e); reflexivity. Qed.

Lemma acks_nil : acks [] = 0.
Proof. reflexivity. Qed.

Ltac count_acks :=
  repeat (rewrite ?acks_cons, ?acks_app, ?acks_prefetched, ?acks_nil;
          cbn [is_ack Nat.add]);
  try reflexivity.

Lemma cleanup_state_quiet w b w' : cleanup_state w = Val b w' -> quiet w w'.
Proof.
  destruct (prewarm_context (prewarm w)) as [c|] eqn:Hc.
  - rewrite (cleanup_state_eq w c Hc). cbv zeta.
    destruct (answer 0 w), (answer 1 w), (answer 2 w);
      intros [= _ <-]; apply quiet_advance; count_acks.
  - rewrite (cleanup_state_null w Hc). discriminate.
Qed.

Lemma prime_state_quiet w state cl b w' :
  prime_state state cl w = Val b w' -> quiet w w'.
Proof.
  rewrite prime_state_eq. cbv zeta.
  destruct (answer 0 w), (answer 1 w);
    intros [= _ <-]; apply quiet_advance; count_acks.
Qed.

Lemma enter_dependent_state_quiet w dependent_id w1 :
  enter_dependent_state dependent_id w = Val tt w1 -> quiet w w1.
Proof.
  unfold Session.enter_dependent_state, bind, get.
  destruct (negb (current_state (prewarm w) =? dependent_id)).
  - destruct (cleanup_state w) as [b w2|w2] eqn:Hc; [|discriminate].
    apply cleanup_state_quiet in Hc.
    destruct (negb (dependent_id =? "")).
    + destruct (prime_state dependent_id "" w2) as [b' w3|w3] eqn:Hp;
        [|discriminate].
      apply prime_state_quiet in Hp.
      intros [= <-]. eapply quiet_trans; eassumption.
    + intros [= <-]. exact Hc.
  - intros [= <-]. apply quiet_refl.
Qed.

(** *** The claims on the helpers *)

(** C5. The lambda [cleanup_state], called with a registered context, is
    all or nothing on [PrewarmData]: it returns [true] exactly when
    [initialize], [interpret] and [cleanup] all succeed, and then every
    field is back to its empty value (ids and [current_state] empty, both
    target pointers null); as soon as one step fails it returns [false] and
    every field is as it was. *)
Theorem cleanup_state_atomic w c :
  prewarm_context (prewarm w) = Some c ->
  let ok := answer 0 w && answer 1 w && answer 2 w in
  exists w',
    cleanup_state w = Val ok w'
    /\ prewarm w' = (if ok then PrewarmData_init else prewarm w).
Proof.
  intros Hc. rewrite (cleanup_state_eq w c Hc). cbv zeta.
  destruct (answer 0 w), (answer 1 w), (answer 2 w);
    eexists; split; reflexivity.
Qed.

(** C6. The lambda [prime_state] returns [true] exactly when [initialize]
    and [interpret] succeed.  When it returns [true] and [cleanup] is not
    empty, [current_state] and [prewarm_id] are [state], [cleanup_id] is
    [cleanup], and the target is the calling connection and its context;
    otherwise [PrewarmData] is as it was. *)
Theorem prime_state_records w state cl :
  let ok := answer 0 w && answer 1 w in
  exists w',
    prime_state state cl w = Val ok w'
    /\ prewarm w' =
       (if ok && negb (empty cl)
        then mkPrewarmData (Some replayConn) (Some context) state cl state
        else prewarm w).
Proof.
  rewrite prime_state_eq. cbv zeta.
  destruct (answer 0 w), (answer 1 w); eexists; split; reflexivity.
Qed.

(** *** The claims on [case kReplay] *)

(** C1 (amended). Once the handler of a [kReplay] request is past getting
    into the dependent state: if [initialize(replay_id)] succeeds, the
    handler sends [sendReplayFinished] exactly once, right after
    [interpret] and right before [cleanup], whatever [interpret] and
    [cleanup] answer; if [initialize(replay_id)] fails it sends none and the
    loop goes on with the next request. *)
Theorem replay_acknowledged w replay_id dependent_id w1 :
  enter_dependent_state dependent_id w = Val tt w1 ->
  if answer 0 w1 then
    exists f w' post,
      handle (kReplay replay_id dependent_id) w = Val f w'
      /\ trace w' =
         trace w1 ++ replayed replay_id (answer 1 w1) (answer 2 w1) ++ post
      /\ acks post = 0
      /\ acks (trace w') = S (acks (trace w))
  else
    exists w',
      handle (kReplay replay_id dependent_id) w = Val Next w'
      /\ trace w' = trace w1 ++ [EInitialize context replay_id false]
      /\ acks (trace w') = acks (trace w).
Proof.
  intros He. pose proof (quiet_acks _ _ (enter_dependent_state_quiet _ _ _ He)) as Hq.
  rewrite handle_replay_eq, He, run_replay_eq.
  destruct (answer 0 w1).
  - destruct (answer 2 w1).
    + exists Next. eexists. exists (prime_instruction (prewarm w1)).
      split; [reflexivity|]. split; [reflexivity|].
      assert (Hp : acks (prime_instruction (prewarm w1)) = 0).
      { unfold prime_instruction.
        destruct (prewarm_service (prewarm w1)); [|reflexivity].
        destruct (pairing_complete (prewarm w1)); reflexivity. }
      split; [exact Hp|].
      cbn [advance trace]. unfold replayed.
      count_acks. rewrite Hp, Hq. lia.
    + exists Return. eexists. exists [].
      split; [reflexivity|]. split; [cbn; rewrite app_nil_r; reflexivity|].
      split; [reflexivity|].
      cbn [advance trace]. unfold replayed. count_acks. rewrite Hq. lia.
  - eexists. split; [reflexivity|]. split; [reflexivity|].
    cbn [advance trace]. count_acks. rewrite Hq. lia.
Qed.

(** C7. When the [cleanup] that ends a replay succeeds, [current_state] is
    set to the empty string, the other fields are kept, and
    [primeState(prewarm_id, cleanup_id)] is sent, once and to
    [prewarm_service], exactly when [prewarm_service] is set and both ids
    are non-empty; nothing is sent otherwise. *)
Theorem replay_primes_target w replay_id dependent_id w1 :
  enter_dependent_state dependent_id w = Val tt w1 ->
  answer 0 w1 = true ->
  answer 2 w1 = true ->
  exists w' post,
    handle (kReplay replay_id dependent_id) w = Val Next w'
    /\ prewarm w' = set_current_state "" (prewarm w1)
    /\ current_state (prewarm w') = ""
    /\ trace w' = trace w1 ++ replayed replay_id (answer 1 w1) true ++ post
    /\ (pairing_complete (prewarm w1) = true ->
        exists s, prewarm_service (prewarm w1) = Some s
                  /\ post = [EPrimeState s (prewarm_id (prewarm w1))
                                           (cleanup_id (prewarm w1))])
    /\ (pairing_complete (prewarm w1) = false -> post = []).
Proof.
  intros He H0 H2. rewrite handle_replay_eq, He, run_replay_eq, H0, H2.
  eexists. exists (prime_instruction (prewarm w1)).
  split; [reflexivity|]. split; [reflexivity|]. split; [reflexivity|].
  split; [reflexivity|].
  unfold prime_instruction, pairing_complete.
  destruct (prewarm_service (prewarm w1)) as [s|].
  - split; intros ->; [exists s; split|]; reflexivity.
  - split; [discriminate | reflexivity].
Qed.

(** C10. The [kReplay] case calls [cleanup_state] whenever [current_state]
    differs from [dependent_id], without looking at [prewarm_context]: when
    that pointer is null, as on a server that has primed nothing, the
    handler stops at the null dereference in [cleanup_state], before any
    call reaches a context. *)
Theorem replay_unprimed_null_deref w replay_id dependent_id :
  prewarm_context (prewarm w) = None ->
  current_state (prewarm w) <> dependent_id ->
  handle (kReplay replay_id dependent_id) w = NullDeref w
  /\ forall rest,
       serve (kReplay replay_id dependent_id :: rest) w = NullDeref w.
Proof.
  intros Hc Hd.
  assert (H : handle (kReplay replay_id dependent_id) w = NullDeref w).
  { rewrite handle_replay_eq.
    unfold Session.enter_dependent_state, bind, get.
    apply String.eqb_neq in Hd. rewrite Hd. cbn [negb].
    rewrite (cleanup_state_null w Hc). reflexivity. }
  split; [exact H|].
  intros rest. cbn [Session.serve]. unfold bind. rewrite H. reflexivity.
Qed.

(** *** The claims on [case kPrewarm] and on the loop *)

Lemma handle_prewarm_eq w prerun_id cl :
  handle (kPrewarm prerun_id cl) w =
  if current_state (prewarm w) =? prerun_id then
    Val Next (mkWorld (set_cleanup_id cl (prewarm w)) (calls w) (trace w))
  else
    match (if negb (current_state (prewarm w) =? "")
           then cleanup_state w else Val true w) with
    | Val true w0 =>
        match prime_state prerun_id cl w0 with
        | Val true w1 => Val Next w1
        | Val false w1 => Val Return w1
        | NullDeref w1 => NullDeref w1
        end
    | Val false w0 => Val Return w0
    | NullDeref w0 => NullDeref w0
    end.
Proof.
  cbn [Session.handle]. unfold Session.on_prewarm, bind, get, ret, modify.
  destruct (current_state (prewarm w) =? prerun_id); [reflexivity|].
  destruct (negb (current_state (prewarm w) =? "")).
  - destruct (cleanup_state w) as [[|] w0|w0]; cbn [negb]; try reflexivity.
    destruct (prime_state prerun_id cl w0) as [[|] w1|w1]; reflexivity.
  - cbn [negb].
    destruct (prime_state prerun_id cl w) as [[|] w1|w1]; reflexivity.
Qed.

Lemma serve_return req rest w w' :
  handle req w = Val Return w' -> serve (req :: rest) w = Val Returned w'.
Proof. intros H. cbn [Session.serve]. unfold bind. rewrite H. reflexivity. Qed.

Lemma serve_next req rest w w' :
  handle req w = Val Next w' -> serve (req :: rest) w = serve rest w'.
Proof. intros H. cbn [Session.serve]. unfold bind. rewrite H. reflexivity. Qed.

(** C2 (amended). When the [cleanup] that ends a replay fails, or the
    [cleanup] inside [cleanup_state] fails for a [kPrewarm] request, the
    handler returns at once: the failed [cleanup] is the last event and the
    requests that follow are not looked at.  When [cleanup_state] fails in
    the [kReplay] case its result is dropped: the handler goes on with the
    replay and then with the loop. *)
Theorem cleanup_failure_fatal w :
  (forall req,
      fatal_cleanup req w = true ->
      exists w' pre c,
        handle req w = Val Return w'
        /\ (forall rest, serve (req :: rest) w = Val Returned w')
        /\ trace w' = pre ++ [ECleanup c false])
  /\ (forall replay_id dependent_id w2,
         current_state (prewarm w) <> dependent_id ->
         cleanup_state w = Val false w2 ->
         exists w1,
           enter_dependent_state dependent_id w = Val tt w1
           /\ forall rest,
               serve (kReplay replay_id dependent_id :: rest) w =
               (f <- run_replay replay_id ;;
                match f with
                | Next => serve rest
                | Return => ret Returned
                end) w1).
Proof.
  split.
  - intros [r d|p c|]; cbn [fatal_cleanup]; [| |discriminate].
    + destruct (enter_dependent_state d w) as [[] w1|w1] eqn:He;
        [|discriminate].
      intros H. apply andb_prop in H as [H0 H2].
      apply negb_true_iff in H2.
      assert (Hh : handle (kReplay r d) w =
                   Val Return (advance 3 (replayed r (answer 1 w1) false)
                                       (prewarm w1) w1)).
      { rewrite handle_replay_eq, He, run_replay_eq, H0, H2. reflexivity. }
      eexists. exists (trace w1 ++ EInitialize context r true
                         :: prefetched context
                         ++ [EInterpret context None (answer 1 w1);
                             ESendReplayFinished replayConn]).
      exists context.
      split; [exact Hh|]. split.
      * intros rest. apply serve_return, Hh.
      * cbn [advance trace]. unfold replayed. norm.
        rewrite <- !app_assoc. reflexivity.
    + intros H. apply andb_prop in H as [H Ha]. apply andb_prop in H as [Hp He].
      apply negb_true_iff in Hp.
      destruct (prewarm_context (prewarm w)) as [cx|] eqn:Hc; [|discriminate].
      apply andb_prop in Ha as [Ha H2]. apply andb_prop in Ha as [H0 H1].
      apply negb_true_iff in H2.
      assert (Hh : handle (kPrewarm p c) w =
                   Val Return
                     (advance 3 (EInitialize cx (cleanup_id (prewarm w)) true
                                   :: prefetched cx
                                   ++ [EInterpret cx None true;
                                       ECleanup cx false])
                              (prewarm w) w)).
      { rewrite handle_prewarm_eq, Hp, He, (cleanup_state_eq w cx Hc).
        cbv zeta. rewrite H0, H1, H2. reflexivity. }
      eexists. exists (trace w ++ EInitialize cx (cleanup_id (prewarm w)) true
                         :: prefetched cx ++ [EInterpret cx None true]).
      exists cx.
      split; [exact Hh|]. split.
      * intros rest. apply serve_return, Hh.
      * cbn [advance trace]. norm. rewrite <- !app_assoc. reflexivity.
  - intros r d w2 Hd Hc.
    assert (He : exists w1, enter_dependent_state d w = Val tt w1).
    { unfold Session.enter_dependent_state, bind, get.
      apply String.eqb_neq in Hd. rewrite Hd. cbn [negb]. rewrite Hc.
      destruct (negb (d =? "")); [|eexists; reflexivity].
      rewrite prime_state_eq. cbv zeta.
      destruct (answer 0 w2), (answer 1 w2); eexists; reflexivity. }
    destruct He as [w1 He]. exists w1. split; [exact He|].
    intros rest. cbn [Session.serve Session.handle].
    unfold Session.on_replay, bind. rewrite He. reflexivity.
Qed.

(** C3 (amended). A [kPrewarm] request whose [prerun_id] is the
    [current_state] calls no context and sends nothing: it only overwrites
    [cleanup_id].  Hence, when a [kPrewarm] request with a non-empty
    [cleanup_id] finds another state loaded and succeeds, [prime_state] ran
    once for [prerun_id], and the same request repeated right after it
    leaves the world as it is. *)
Theorem prewarm_idempotent w prerun_id cl :
  (current_state (prewarm w) = prerun_id ->
   handle (kPrewarm prerun_id cl) w =
   Val Next (mkWorld (set_cleanup_id cl (prewarm w)) (calls w) (trace w)))
  /\ (cl <> "" ->
      current_state (prewarm w) <> prerun_id ->
      forall w1,
        handle (kPrewarm prerun_id cl) w = Val Next w1 ->
        (exists w0,
            vacated w w0
            /\ w1 = advance 2 (primed prerun_id)
                      (mkPrewarmData (Some replayConn) (Some context)
                                     prerun_id cl prerun_id) w0)
        /\ handle (kPrewarm prerun_id cl) w1 = Val Next w1
        /\ serve [kPrewarm prerun_id cl; kPrewarm prerun_id cl] w =
           Val NoMoreRequests w1).
Proof.
  split.
  - intros H. rewrite handle_prewarm_eq.
    apply String.eqb_eq in H. rewrite H. reflexivity.
  - intros Hcl Hne w1 Hh.
    assert (Hw : exists w0,
               vacated w w0
               /\ w1 = advance 2 (primed prerun_id)
                         (mkPrewarmData (Some replayConn) (Some context)
                                        prerun_id cl prerun_id) w0).
    { revert Hh. rewrite handle_prewarm_eq.
      apply String.eqb_neq in Hne. rewrite Hne.
      apply String.eqb_neq in Hcl.
      assert (Hp : forall w0, vacated w w0 ->
                 match prime_state prerun_id cl w0 with
                 | Val true w1 => Val Next w1
                 | Val false w1 => Val Return w1
                 | NullDeref w1 => NullDeref w1
                 end = Val Next w1 ->
                 exists w0,
                   vacated w w0
                   /\ w1 = advance 2 (primed prerun_id)
                             (mkPrewarmData (Some replayConn) (Some context)
                                            prerun_id cl prerun_id) w0).
      { intros w0 Hv. rewrite prime_state_eq. cbv zeta.
        unfold empty. rewrite Hcl. cbn [negb].
        destruct (answer 0 w0); [|discriminate].
        destruct (answer 1 w0); [|discriminate].
        intros [= <-]. exists w0. split; [exact Hv | reflexivity]. }
      unfold vacated in Hp |- *.
      destruct (current_state (prewarm w) =? ""); cbn [negb].
      - apply Hp. reflexivity.
      - destruct (cleanup_state w) as [[|] w0|w0]; try discriminate.
        apply Hp. reflexivity. }
    assert (Hs : handle (kPrewarm prerun_id cl) w1 = Val Next w1).
    { destruct Hw as [w0 [_ ->]]. rewrite handle_prewarm_eq.
      cbn [advance prewarm current_state]. rewrite String.eqb_refl.
      reflexivity. }
    split; [exact Hw|]. split; [exact Hs|].
    rewrite (serve_next _ _ _ _ Hh), (serve_next _ _ _ _ Hs). reflexivity.
Qed.

(** *** The pairing of the ids *)

Lemma prewarm_inv_init : prewarm_inv PrewarmData_init = true.
Proof. reflexivity. Qed.

Lemma prewarm_inv_reset p :
  prewarm_inv p = true -> prewarm_inv (set_current_state "" p) = true.
Proof.
  intros H. apply andb_prop in H as [H _].
  apply andb_true_intro. split; [exact H | reflexivity].
Qed.

Lemma cleanup_state_inv w :
  prewarm_inv (prewarm w) = true ->
  prewarm_inv (prewarm (world_of (cleanup_state w))) = true.
Proof.
  intros H. destruct (prewarm_context (prewarm w)) as [c|] eqn:Hc.
  - rewrite (cleanup_state_eq w c Hc). cbv zeta.
    destruct (answer 0 w), (answer 1 w), (answer 2 w); cbn; assumption || reflexivity.
  - rewrite (cleanup_state_null w Hc). exact H.
Qed.

Lemma prime_state_inv w state cl :
  empty cl || negb (empty state) = true ->
  prewarm_inv (prewarm w) = true ->
  prewarm_inv (prewarm (world_of (prime_state state cl w))) = true.
Proof.
  intros Hs H. rewrite prime_state_eq. cbv zeta.
  destruct (answer 0 w), (answer 1 w); cbn [world_of advance prewarm];
    try exact H.
  destruct (empty cl) eqn:Hcl; cbn [negb]; [exact H|].
  cbn [orb] in Hs. apply negb_true_iff in Hs.
  unfold prewarm_inv, ids_paired. cbn [prewarm_id cleanup_id current_state].
  rewrite Hs, Hcl, String.eqb_refl. reflexivity.
Qed.

Lemma enter_dependent_state_inv w dependent_id :
  prewarm_inv (prewarm w) = true ->
  prewarm_inv (prewarm (world_of (enter_dependent_state dependent_id w))) = true.
Proof.
  intros H. unfold Session.enter_dependent_state, bind, get.
  destruct (negb (current_state (prewarm w) =? dependent_id)); [|exact H].
  pose proof (cleanup_state_inv w H) as Hc.
  destruct (cleanup_state w) as [b w2|w2]; cbn [world_of] in Hc; [|exact Hc].
  destruct (negb (dependent_id =? "")); [|exact Hc].
  pose proof (prime_state_inv w2 dependent_id "" eq_refl Hc) as Hp.
  destruct (prime_state dependent_id "" w2); exact Hp.
Qed.

Lemma run_replay_inv w replay_id :
  prewarm_inv (prewarm w) = true ->
  prewarm_inv (prewarm (world_of (run_replay replay_id w))) = true.
Proof.
  intros H. rewrite run_replay_eq.
  destruct (answer 0 w), (answer 2 w); cbn [world_of advance prewarm];
    try exact H.
  apply prewarm_inv_reset, H.
Qed.

Lemma handle_inv w req :
  nonempty_ids req = true ->
  prewarm_inv (prewarm w) = true ->
  prewarm_inv (prewarm (world_of (handle req w))) = true.
Proof.
  intros Hreq H. destruct req as [r d|p c|]; [| |exact H].
  - rewrite handle_replay_eq.
    pose proof (enter_dependent_state_inv w d H) as He.
    destruct (enter_dependent_state d w) as [u w1|w1]; cbn [world_of] in He;
      [|exact He].
    apply run_replay_inv, He.
  - cbn [nonempty_ids] in Hreq. apply andb_prop in Hreq as [Hp Hc].
    apply negb_true_iff in Hp, Hc.
    rewrite handle_prewarm_eq.
    destruct (current_state (prewarm w) =? p) eqn:Hcs.
    + apply String.eqb_eq in Hcs. cbn [world_of prewarm].
      unfold prewarm_inv, ids_paired in H |- *.
      cbn [set_cleanup_id prewarm_id cleanup_id current_state].
      apply andb_prop in H as [_ H]. rewrite Hcs in H |- *. rewrite Hp in H.
      cbn [orb] in H. rewrite H, Hc. apply String.eqb_eq in H.
      rewrite <- H, Hp. reflexivity.
    + assert (Hv : forall w0, prewarm_inv (prewarm w0) = true ->
                 prewarm_inv
                   (prewarm
                      (world_of
                         match prime_state p c w0 with
                         | Val true w1 => Val Next w1
                         | Val false w1 => Val Return w1
                         | NullDeref w1 => NullDeref w1
                         end)) = true).
      { intros w0 H0.
        assert (Hs : empty c || negb (empty p) = true)
          by (rewrite Hp, Hc; reflexivity).
        pose proof (prime_state_inv w0 p c Hs H0) as Hq.
        destruct (prime_state p c w0) as [[|] w1|w1]; exact Hq. }
      destruct (negb (current_state (prewarm w) =? "")).
      * pose proof (cleanup_state_inv w H) as Hq.
        destruct (cleanup_state w) as [[|] w0|w0]; cbn [world_of] in Hq |- *;
          auto.
      * apply Hv, H.
Qed.

Lemma serve_inv reqs :
  forallb nonempty_ids reqs = true ->
  forall w,
    prewarm_inv (prewarm w) = true ->
    prewarm_inv (prewarm (world_of (serve reqs w))) = true.
Proof.
  induction reqs as [|req rest IH]; intros Hreqs w H; [exact H|].
  cbn [forallb] in Hreqs. apply andb_prop in Hreqs as [Hreq Hrest].
  pose proof (handle_inv w req Hreq H) as Hh.
  cbn [Session.serve]. unfold bind.
  destruct (handle req w) as [[|] w1|w1]; cbn [world_of] in Hh |- *.
  - apply IH; assumption.
  - exact Hh.
  - exact Hh.
Qed.

(** C4 (amended). Served from the initial [PrewarmData], any list of
    requests whose [kPrewarm] requests carry a non-empty [prerun_id] and a
    non-empty [cleanup_id] leaves [prewarm_id] and [cleanup_id] both empty
    or both non-empty, wherever the handler stops. *)
Theorem ids_paired_reachable reqs :
  forallb nonempty_ids reqs = true ->
  ids_paired (prewarm (world_of (serve reqs World_init))) = true.
Proof.
  intros Hreqs.
  pose proof (serve_inv reqs Hreqs World_init prewarm_inv_init) as H.
  apply andb_prop in H as [H _]. exact H.
Qed.

End Facts.

(** *** The claims at concrete requests *)

Lemma cleanup_state_atomic_witness :
  prewarm_context (prewarm World_primed) = Some 9
  /\ exists w',
       cleanup_state all_ok true World_primed = Val true w'
       /\ prewarm w' = PrewarmData_init.
Proof.
  split; [reflexivity|].
  exact (cleanup_state_atomic all_ok true World_primed 9 eq_refl).
Defined.

Lemma replay_acknowledged_witness :
  enter_dependent_state all_ok true 7 9 "A" World_primed = Val tt World_primed
  /\ exists f w',
       handle all_ok true 7 9 (kReplay "r" "A") World_primed = Val f w'
       /\ acks (trace w') = 1.
Proof.
  split; [reflexivity|].
  destruct (replay_acknowledged all_ok true 7 9 World_primed "r" "A"
              World_primed eq_refl) as (f & w' & post & Hh & _ & _ & Ha).
  exists f, w'. split; [exact Hh | exact Ha].
Defined.

(** C1, as stated, fails: when [initialize(replay_id)] fails the handler
    goes on to the next request without any [sendReplayFinished]. *)
Lemma replay_not_acknowledged :
  handle none_ok false 7 9 (kReplay "r" "") World_init =
  Val Next (mkWorld PrewarmData_init 1 [EInitialize 9 "r" false])
  /\ acks [EInitialize 9 "r" false] <> 1.
Proof. split; [reflexivity | discriminate]. Qed.

Lemma replay_primes_target_witness :
  (enter_dependent_state all_ok true 7 9 "A" World_primed = Val tt World_primed
   /\ answer all_ok 0 World_primed = true
   /\ answer all_ok 2 World_primed = true)
  /\ exists w',
       handle all_ok true 7 9 (kReplay "r" "A") World_primed = Val Next w'
       /\ current_state (prewarm w') = ""
       /\ trace w' =
          [EInitialize 9 "r" true; EPrefetch 9; EInterpret 9 None true;
           ESendReplayFinished 7; ECleanup 9 true;
           EPrimeState 7 "A" "A_exit"].
Proof.
  split; [repeat split|].
  destruct (replay_primes_target all_ok true 7 9 World_primed "r" "A"
              World_primed eq_refl eq_refl eq_refl)
    as (w' & post & Hh & _ & Hc & Ht & Hy & _).
  exists w'. split; [exact Hh|]. split; [exact Hc|].
  destruct (Hy eq_refl) as (s & Hs & Hp).
  injection Hs as Hs. rewrite Ht, Hp, <- Hs. reflexivity.
Defined.

Lemma replay_unprimed_null_deref_witness :
  (prewarm_context (prewarm World_init) = None
   /\ current_state (prewarm World_init) <> "d")
  /\ serve all_ok true 7 9 [kReplay "r" "d"] World_init = NullDeref World_init.
Proof.
  assert (H : current_state (prewarm World_init) <> "d") by discriminate.
  split; [split; [reflexivity | exact H]|].
  exact (proj2 (replay_unprimed_null_deref all_ok true 7 9 World_init
                  "r" "d" eq_refl H) []).
Defined.

Lemma cleanup_failure_fatal_witness :
  (fatal_cleanup (fails_at 2) true 7 9 (kPrewarm "B" "B_exit") World_primed
   = true
   /\ exists w',
        forall rest,
          serve (fails_at 2) true 7 9 (kPrewarm "B" "B_exit" :: rest)
                World_primed = Val Returned w')
  /\ (current_state (prewarm World_primed) <> "B"
      /\ exists w2 w1,
           cleanup_state (fails_at 2) true World_primed = Val false w2
           /\ enter_dependent_state (fails_at 2) true 7 9 "B" World_primed
              = Val tt w1).
Proof.
  destruct (cleanup_failure_fatal (fails_at 2) true 7 9 World_primed)
    as [Hfatal Hdropped].
  split.
  - split; [reflexivity|].
    destruct (Hfatal (kPrewarm "B" "B_exit") eq_refl)
      as (w' & pre & c & _ & Hs & _).
    exists w'. exact Hs.
  - assert (H : current_state (prewarm World_primed) <> "B") by discriminate.
    split; [exact H|].
    eexists.
    destruct (Hdropped "r" "B" _ H eq_refl) as (w1 & He & _).
    exists w1. split; [reflexivity | exact He].
Defined.

(** C2, as stated, fails: the [cleanup] of [cleanup_state] fails in the
    [kReplay] case (fifth call of a context), and the handler still runs
    that replay and the next one. *)
Lemma replay_survives_failed_cleanup_state :
  serve (fails_at 4) true 7 9
        [kPrewarm "A" "A_exit"; kReplay "r" "B"; kReplay "r2" ""] World_init
  = Val NoMoreRequests
      (mkWorld (mkPrewarmData (Some 7) (Some 9) "A" "A_exit" "") 13
         [EInitialize 9 "A" true; EPrefetch 9; EInterpret 9 (Some false) true;
          EInitialize 9 "A_exit" true; EPrefetch 9; EInterpret 9 None true;
          ECleanup 9 false;
          EInitialize 9 "B" true; EPrefetch 9; EInterpret 9 (Some false) true;
          EInitialize 9 "r" true; EPrefetch 9; EInterpret 9 None true;
          ESendReplayFinished 7; ECleanup 9 true; EPrimeState 7 "A" "A_exit";
          EInitialize 9 "r2" true; EPrefetch 9; EInterpret 9 None true;
          ESendReplayFinished 7; ECleanup 9 true; EPrimeState 7 "A" "A_exit"])
  /\ failed_cleanup_then_more
       (trace (world_of
          (serve (fails_at 4) true 7 9
             [kPrewarm "A" "A_exit"; kReplay "r" "B"; kReplay "r2" ""]
             World_init))).
Proof.
  split; [vm_compute; reflexivity|].
  exists [EInitialize 9 "A" true; EPrefetch 9; EInterpret 9 (Some false) true;
          EInitialize 9 "A_exit" true; EPrefetch 9; EInterpret 9 None true].
  exists 9. exists (EInitialize 9 "B" true).
  exists [EPrefetch 9; EInterpret 9 (Some false) true;
          EInitialize 9 "r" true; EPrefetch 9; EInterpret 9 None true;
          ESendReplayFinished 7; ECleanup 9 true; EPrimeState 7 "A" "A_exit";
          EInitialize 9 "r2" true; EPrefetch 9; EInterpret 9 None true;
          ESendReplayFinished 7; ECleanup 9 true; EPrimeState 7 "A" "A_exit"].
  vm_compute. reflexivity.
Qed.

Lemma prewarm_idempotent_witness :
  (current_state (prewarm World_primed) = "A"
   /\ handle all_ok true 7 9 (kPrewarm "A" "X") World_primed =
      Val Next (mkWorld (mkPrewarmData (Some 7) (Some 9) "A" "X" "A") 0 []))
  /\ (("C" <> "" /\ current_state (prewarm World_init) <> "S")
      /\ exists w1,
           handle all_ok true 7 9 (kPrewarm "S" "C") World_init = Val Next w1
           /\ serve all_ok true 7 9 [kPrewarm "S" "C"; kPrewarm "S" "C"]
                    World_init = Val NoMoreRequests w1
           /\ initializes "S" (trace w1) = 1).
Proof.
  split.
  - split; [reflexivity|].
    exact (proj1 (prewarm_idempotent all_ok true 7 9 World_primed "A" "X")
                 eq_refl).
  - assert (Hc : "C" <> "") by discriminate.
    assert (Hs : current_state (prewarm World_init) <> "S") by discriminate.
    split; [split; assumption|].
    eexists. split; [reflexivity|].
    split; [|reflexivity].
    exact (proj2 (proj2 (proj2 (prewarm_idempotent all_ok true 7 9 World_init
                                  "S" "C") Hc Hs _ eq_refl))).
Defined.

(** C3, as stated, fails: with an empty [cleanup_id] nothing is recorded,
    and the second of two equal [kPrewarm] requests primes again. *)
Lemma prewarm_twice_primes_twice :
  serve all_ok false 7 9 [kPrewarm "S" ""; kPrewarm "S" ""] World_init
  = Val NoMoreRequests
      (mkWorld PrewarmData_init 4
         [EInitialize 9 "S" true; EInterpret 9 (Some false) true;
          EInitialize 9 "S" true; EInterpret 9 (Some false) true])
  /\ initializes "S"
       (trace (world_of
          (serve all_ok false 7 9 [kPrewarm "S" ""; kPrewarm "S" ""]
             World_init))) = 2.
Proof. split; reflexivity. Qed.

Lemma ids_paired_reachable_witness :
  forallb nonempty_ids
    [kPrewarm "A" "A_exit"; kReplay "r" "A"; kPrewarm "B" "B_exit"] = true
  /\ ids_paired
       (prewarm (world_of
          (serve all_ok true 7 9
             [kPrewarm "A" "A_exit"; kReplay "r" "A"; kPrewarm "B" "B_exit"]
             World_init))) = true.
Proof.
  split; [reflexivity|].
  exact (ids_paired_reachable all_ok true 7 9
           [kPrewarm "A" "A_exit"; kReplay "r" "A"; kPrewarm "B" "B_exit"]
           eq_refl).
Defined.

(** C4, as stated, fails: on a fresh server a [kPrewarm] request with an
    empty [prerun_id] matches the empty [current_state] and records its
    [cleanup_id] next to an empty [prewarm_id]. *)
Lemma ids_unpaired_reachable :
  prewarm (world_of (serve all_ok true 7 9 [kPrewarm "" "C"] World_init))
  = mkPrewarmData None None "" "C" ""
  /\ ids_paired
       (prewarm (world_of (serve all_ok true 7 9 [kPrewarm "" "C"] World_init)))
     = false.
Proof. split; reflexivity. Qed.

End SessionFacts.

(** ** Facts about [createCache] *)

Module CacheFacts.
Import Cache.

Lemma length_zero_iff (s : string) : Nat.eqb (String.length s) 0 = true <-> s = "".
Proof.
  destruct s; cbn; split; intros H; try reflexivity; discriminate.
Qed.

Lemma resolved_path_temp env opts :
  path opts = "" -> resolved_path env opts = getTempOnDiskCachePath env.
Proof. unfold resolved_path. intros ->. reflexivity. Qed.

(** [createCache] in terms of the resolved path and clean-up flag. *)
Lemma createCache_eq os env opts :
  createCache os env opts =
  if linux_or_osx os && enabled opts
     && negb (Nat.eqb (String.length (resolved_path env opts)) 0)
     && OnDiskResourceCache_create env (resolved_path env opts)
                                   (resolved_cleanUp opts)
  then (OnDiskResourceCache (resolved_path env opts) (resolved_cleanUp opts),
        if cleanUp opts || Nat.eqb (String.length (path opts)) 0
        then Some (mkMonitorArgs (resolved_path env opts)
                                 (Nat.eqb (String.length (path opts)) 0))
        else None)
  else (InMemoryResourceCache (getTopAddress env), None).
Proof.
  unfold createCache, resolved_path, resolved_cleanUp.
  destruct (linux_or_osx os); [|reflexivity].
  destruct (enabled opts); [|reflexivity]. cbn [negb andb].
  destruct (Nat.eqb (String.length (path opts)) 0) eqn:Hp.
  - destruct (Nat.eqb (String.length (getTempOnDiskCachePath env)) 0);
      [reflexivity|]. cbn [negb andb].
    destruct (OnDiskResourceCache_create env (getTempOnDiskCachePath env) true);
      [|reflexivity].
    cbn [negb orb]. rewrite orb_true_r. reflexivity.
  - rewrite Hp. cbn [negb andb].
    destruct (OnDiskResourceCache_create env (path opts) (cleanUp opts));
      reflexivity.
Qed.

(** C8. [createCache] returns the in-memory cache of size
    [getTopAddress()] and forks nothing when the on-disk cache is not
    enabled, when no path is given and no temporary directory is obtained,
    and when [OnDiskResourceCache::create] fails.  It forks the monitor
    exactly when the platform is Linux or OSX, the on-disk cache is enabled,
    its path is not empty, [OnDiskResourceCache::create] succeeds, and
    clean-up is asked for or the directory is a temporary one; the cache
    returned is then that on-disk cache. *)
Theorem createCache_fallback os env opts :
  (enabled opts = false
   \/ (path opts = "" /\ getTempOnDiskCachePath env = "")
   \/ OnDiskResourceCache_create env (resolved_path env opts)
                                 (resolved_cleanUp opts) = false ->
   createCache os env opts
   = (InMemoryResourceCache (getTopAddress env), None))
  /\ (forall a,
         snd (createCache os env opts) = Some a <->
         linux_or_osx os = true
         /\ enabled opts = true
         /\ resolved_path env opts <> ""
         /\ OnDiskResourceCache_create env (resolved_path env opts)
                                       (resolved_cleanUp opts) = true
         /\ (cleanUp opts = true \/ path opts = "")
         /\ fst (createCache os env opts)
            = OnDiskResourceCache (resolved_path env opts)
                                  (resolved_cleanUp opts)
         /\ a = mkMonitorArgs (resolved_path env opts)
                              (Nat.eqb (String.length (path opts)) 0)).
Proof.
  rewrite createCache_eq. split.
  - intros [H|[[Hp Ht]|H]].
    + rewrite H, andb_false_r. reflexivity.
    + rewrite (resolved_path_temp env opts Hp), Ht.
      cbn [String.length Nat.eqb negb]. rewrite andb_false_r. reflexivity.
    + rewrite H, andb_false_r. reflexivity.
  - intros a.
    destruct (linux_or_osx os); cbn [andb fst snd];
      [|split; [discriminate | intros [H _]; discriminate]].
    destruct (enabled opts); cbn [andb fst snd];
      [|split; [discriminate | intros (_ & H & _); discriminate]].
    destruct (Nat.eqb (String.length (resolved_path env opts)) 0) eqn:Hl;
      cbn [negb andb fst snd].
    { apply length_zero_iff in Hl.
      split; [discriminate | intros (_ & _ & H & _); contradiction]. }
    assert (Hne : resolved_path env opts <> "").
    { intros H. rewrite H in Hl. discriminate. }
    destruct (OnDiskResourceCache_create env (resolved_path env opts)
                                         (resolved_cleanUp opts));
      cbn [fst snd];
      [|split; [discriminate | intros (_ & _ & _ & H & _); discriminate]].
    destruct (cleanUp opts) eqn:Hc; cbn [orb].
    + split.
      * intros [= <-]. repeat split; auto.
      * intros (_ & _ & _ & _ & _ & _ & ->). reflexivity.
    + destruct (Nat.eqb (String.length (path opts)) 0) eqn:Hp.
      * apply length_zero_iff in Hp. split.
        -- intros [= <-]. repeat split; auto.
        -- intros (_ & _ & _ & _ & _ & _ & ->). reflexivity.
      * split; [discriminate|].
        intros (_ & _ & _ & _ & [H|H] & _); [discriminate|].
        rewrite H in Hp. discriminate.
Qed.

Lemma createCache_fallback_witness :
  let env := mkEnv (Some "/tmp") true (fun t => Some t)
                   (fun p _ => negb (p =? "/unwritable")) 1024 in
  (OnDiskResourceCache_create env
     (resolved_path env (mkOnDiskCache true true "/unwritable"))
     (resolved_cleanUp (mkOnDiskCache true true "/unwritable")) = false
   /\ createCache GAPID_OS_LINUX env (mkOnDiskCache true true "/unwritable")
      = (InMemoryResourceCache 1024, None))
  /\ (snd (createCache GAPID_OS_LINUX env (mkOnDiskCache true false ""))
      = Some (mkMonitorArgs "/tmp/gapir-cache.XXXXXX" true)
      /\ fst (createCache GAPID_OS_LINUX env (mkOnDiskCache true false ""))
         = OnDiskResourceCache "/tmp/gapir-cache.XXXXXX" true).
Proof.
  intros env. split.
  - split; [reflexivity|].
    exact (proj1 (createCache_fallback GAPID_OS_LINUX env
                    (mkOnDiskCache true true "/unwritable"))
                 (or_intror (or_intror eq_refl))).
  - split; [reflexivity|].
    destruct (proj1 (proj2 (createCache_fallback GAPID_OS_LINUX env
                              (mkOnDiskCache true false ""))
                           (mkMonitorArgs "/tmp/gapir-cache.XXXXXX" true))
                    eq_refl)
      as (_ & _ & _ & _ & _ & H & _).
    exact H.
Defined.

End CacheFacts.

(** ** Facts about the monitor process *)

Module MonitorFacts.
Import Monitor.

Section Facts.

Variable parent_alive : nat -> bool.
Variable opendir_ok : bool.
Variable args : Cache.MonitorArgs.

Local Abbreviation wait_for_parent := (wait_for_parent parent_alive).
Local Abbreviation monitor := (monitor parent_alive opendir_ok args).
Local Abbreviation after_parent_exit := (after_parent_exit opendir_ok args).

Lemma deletions_app t u : deletions (t ++ u) = deletions t + deletions u.
Proof. unfold deletions. rewrite filter_app, length_app. reflexivity. Qed.

Lemma deletions_waits k : deletions (waits k) = 0.
Proof. induction k as [|k IH]; [reflexivity | exact IH]. Qed.

Lemma deletions_after_parent_exit : deletions after_parent_exit <= 1.
Proof.
  unfold Monitor.after_parent_exit, delete_cache.
  destruct opendir_ok; [|cbn; lia].
  destruct (Cache.useTempCacheFolder args); cbn; lia.
Qed.

(** The loop, by the first poll that finds the parent gone, if any. *)
Lemma wait_for_parent_shape fuel :
  forall n,
  exists k,
    (forall j, j < k -> parent_alive (n + j) = true)
    /\ ((k = fuel /\ wait_for_parent fuel n = (waits k, false))
        \/ (k < fuel /\ parent_alive (n + k) = false
            /\ wait_for_parent fuel n = (waits k ++ [Kill 0 false], true))).
Proof.
  induction fuel as [|fuel IH]; intros n.
  - exists 0. split; [intros j Hj; lia|]. left. split; reflexivity.
  - cbn [Monitor.wait_for_parent].
    destruct (parent_alive n) eqn:Hn.
    + destruct (IH (S n)) as (k & Hk & Hs). exists (S k). split.
      * intros [|j] Hj; [rewrite Nat.add_0_r; exact Hn|].
        rewrite Nat.add_succ_r. apply (Hk j). lia.
      * destruct Hs as [[-> Hw]|(Hlt & Hd & Hw)]; rewrite Hw.
        -- left. split; reflexivity.
        -- right. split; [lia|]. split; [|reflexivity].
           rewrite Nat.add_succ_r. exact Hd.
    + exists 0. split; [intros j Hj; lia|]. right.
      split; [lia|]. split; [rewrite Nat.add_0_r; exact Hn | reflexivity].
Qed.

(** Under [FTW_DEPTH] a directory reaches the callback of [nftw] with the
    flag [FTW_DP], its files having been visited before it; the lambda
    answers [unlink] for it, [rmdir] being kept for [FTW_D]. *)
Lemma remove_entry_directory_after_files fpath :
  remove_entry fpath FTW_DP = unlink fpath
  /\ remove_entry fpath FTW_D = rmdir fpath
  /\ remove_entry fpath FTW_F = unlink fpath.
Proof. repeat split. Qed.

(** The order of the calls of the monitor.  Whatever the parent does, the
    monitor is either still polling,
    every poll so far having found the parent alive and having been
    followed by [usleep(500000)], or it has polled until a [kill(ppid, 0)]
    failed and then, in this order, opened the directory, deleted the cache
    (if the directory could be opened) and called [exit(0)].  So a deletion
    is started at most once, and only right after the poll that found the
    parent gone.  If some poll finds the parent gone, the monitor ends with
    [exit(0)] as soon as it is given that many polls. *)
Theorem monitor_deletes_once_after_parent_exit fuel :
  (exists k,
      (forall j, j < k -> parent_alive j = true)
      /\ ((k = fuel /\ monitor fuel = waits k)
          \/ (k < fuel /\ parent_alive k = false
              /\ monitor fuel =
                 waits k
                 ++ Kill 0 false
                 :: Opendir (Cache.onDiskCachePath args) opendir_ok
                 :: (if opendir_ok then delete_cache args else [])
                 ++ [ExitProcess 0])))
  /\ deletions (monitor fuel) <= 1
  /\ (forall k, parent_alive k = false -> k < fuel ->
      exists t, monitor fuel = t ++ [ExitProcess 0]).
Proof.
  unfold Monitor.monitor.
  destruct (wait_for_parent_shape fuel 0) as (k & Hk & Hs).
  cbn [Nat.add] in Hk, Hs.
  split; [|split].
  - exists k. split; [exact Hk|].
    destruct Hs as [[-> Hw]|(Hlt & Hd & Hw)]; rewrite Hw.
    + left. split; reflexivity.
    + right. split; [exact Hlt|]. split; [exact Hd|].
      rewrite <- app_assoc. reflexivity.
  - destruct Hs as [[_ Hw]|(_ & _ & Hw)]; rewrite Hw.
    + rewrite deletions_waits. lia.
    + rewrite !deletions_app, deletions_waits.
      pose proof deletions_after_parent_exit as Ha.
      assert (Hp : deletions [Kill 0 false] = 0) by reflexivity.
      lia.
  - intros j Hj Hlt.
    destruct Hs as [[-> _]|(_ & _ & Hw)].
    + rewrite (Hk j Hlt) in Hj. discriminate.
    + rewrite Hw. unfold Monitor.after_parent_exit.
      exists ((waits k ++ [Kill 0 false])
              ++ Opendir (Cache.onDiskCachePath args) opendir_ok
              :: (if opendir_ok then delete_cache args else [])).
      rewrite <- !app_assoc. reflexivity.
Qed.

End Facts.

Lemma monitor_deletes_once_after_parent_exit_witness :
  (negb (Nat.eqb 2 2) = false /\ 2 < 5)
  /\ monitor (fun n => negb (Nat.eqb n 2)) true
             (Cache.mkMonitorArgs "/tmp/gapir-cache.abc" true) 5
     = [Kill 0 true; Usleep 500000; Kill 0 true; Usleep 500000; Kill 0 false;
        Opendir "/tmp/gapir-cache.abc" true;
        Nftw "/tmp/gapir-cache.abc" remove_entry 64 FTW_DEPTH;
        Rmdir "/tmp/gapir-cache.abc"; ExitProcess 0]
  /\ exists t,
       monitor (fun n => negb (Nat.eqb n 2)) true
               (Cache.mkMonitorArgs "/tmp/gapir-cache.abc" true) 5
       = t ++ [ExitProcess 0].
Proof.
  split; [split; [reflexivity | lia]|]. split; [reflexivity|].
  refine (proj2 (proj2 (monitor_deletes_once_after_parent_exit
                          (fun n => negb (Nat.eqb n 2)) true
                          (Cache.mkMonitorArgs "/tmp/gapir-cache.abc" true) 5))
                2 eq_refl _).
  lia.
Defined.

End MonitorFacts.

(** ** Further facts about the session handler *)

Module SessionMore.
Import Session SessionSpec SessionObs.

Section Facts.

Variable oracle : nat -> bool.
Variable cache : bool.
Variable replayConn : Service.
Variable context : ContextPtr.

Local Abbreviation cleanup_state := (cleanup_state oracle cache).
Local Abbreviation prime_state := (prime_state oracle cache replayConn context).
Local Abbreviation enter_dependent_state :=
  (enter_dependent_state oracle cache replayConn context).
Local Abbreviation run_replay := (run_replay oracle cache replayConn context).
Local Abbreviation handle := (handle oracle cache replayConn context).
Local Abbreviation serve := (serve oracle cache replayConn context).
Local Abbreviation answer := (answer oracle).
Local Abbreviation prefetched := (prefetched cache).
Local Abbreviation replayed := (replayed cache replayConn context).
Local Abbreviation primed := (primed cache context).

Local Abbreviation cleanup_state_eq := (SessionFacts.cleanup_state_eq oracle cache).
Local Abbreviation cleanup_state_null :=
  (SessionFacts.cleanup_state_null oracle cache).
Local Abbreviation prime_state_eq :=
  (SessionFacts.prime_state_eq oracle cache replayConn context).
Local Abbreviation run_replay_eq :=
  (SessionFacts.run_replay_eq oracle cache replayConn context).
Local Abbreviation handle_replay_eq :=
  (SessionFacts.handle_replay_eq oracle cache replayConn context).
Local Abbreviation handle_prewarm_eq :=
  (SessionFacts.handle_prewarm_eq oracle cache replayConn context).

(** *** The loop over a list of requests in two parts *)

(** X1. Serving [a ++ b] is serving [a] and, if the handler is still in
    its loop when [a] is used up, serving [b] from the world [a] left; if
    the handler returned or stopped during [a], [b] is never looked at. *)
Theorem serve_app a b w :
  serve (a ++ b) w =
  match serve a w with
  | Val NoMoreRequests w' => serve b w'
  | r => r
  end.
Proof.
  revert w. induction a as [|req a IH]; intros w; [reflexivity|].
  cbn [app Session.serve]. unfold bind.
  destruct (handle req w) as [[|] w1|w1]; [apply IH | reflexivity..].
Qed.

(** *** What reaches the clients *)

Lemma sent_app t u : sent (t ++ u) = sent t ++ sent u.
Proof. apply filter_app. Qed.

Lemma sent_prefetched c : sent (prefetched c) = [].
Proof. unfold SessionSpec.prefetched. destruct cache; reflexivity. Qed.

Lemma silent_advance n t p w : sent t = [] -> silent w (advance n t p w).
Proof.
  intros H. unfold silent. cbn [advance trace].
  rewrite sent_app, H, app_nil_r. reflexivity.
Qed.

Ltac no_sent :=
  cbn [sent filter is_sent app];
  repeat (rewrite ?sent_app, ?sent_prefetched; cbn [sent filter is_sent app]);
  try reflexivity.

Lemma cleanup_state_silent w : silent w (world_of (cleanup_state w)).
Proof.
  destruct (prewarm_context (prewarm w)) as [c|] eqn:Hc.
  - rewrite (cleanup_state_eq w c Hc). cbv zeta.
    destruct (answer 0 w), (answer 1 w), (answer 2 w); cbn [world_of];
      apply silent_advance; no_sent.
  - rewrite (cleanup_state_null w Hc). reflexivity.
Qed.

Lemma prime_state_silent w state cl :
  silent w (world_of (prime_state state cl w)).
Proof.
  rewrite prime_state_eq. cbv zeta.
  destruct (answer 0 w), (answer 1 w); cbn [world_of];
    apply silent_advance; no_sent.
Qed.

Lemma enter_dependent_state_silent w dependent_id :
  silent w (world_of (enter_dependent_state dependent_id w)).
Proof.
  unfold Session.enter_dependent_state, bind, get.
  destruct (negb (current_state (prewarm w) =? dependent_id));
    [|reflexivity].
  pose proof (cleanup_state_silent w) as Hc.
  destruct (cleanup_state w) as [b w2|w2]; cbn [world_of] in Hc |- *;
    [|exact Hc].
  destruct (negb (dependent_id =? "")); [|exact Hc].
  pose proof (prime_state_silent w2 dependent_id "") as Hp.
  unfold silent in *.
  destruct (prime_state dependent_id "" w2) as [b' w3|w3];
    cbn [world_of] in Hp |- *; unfold ret; cbn [world_of];
    rewrite Hp; exact Hc.
Qed.

Lemma acks_sent t : acks (sent t) = acks t.
Proof.
  unfold acks, sent. induction t as [|e t IH]; [reflexivity|].
  destruct e; cbn; try exact IH; rewrite IH; reflexivity.
Qed.

Lemma prewarm_sends_nothing_aux w prerun_id cl :
  sent (trace (world_of (handle (kPrewarm prerun_id cl) w))) = sent (trace w).
Proof.
  rewrite handle_prewarm_eq.
  destruct (current_state (prewarm w) =? prerun_id); [reflexivity|].
  assert (Hp : forall w0,
             silent w w0 ->
             sent (trace (world_of
                            match prime_state prerun_id cl w0 with
                            | Val true w1 => Val Next w1
                            | Val false w1 => Val Return w1
                            | NullDeref w1 => NullDeref w1
                            end)) = sent (trace w)).
  { intros w0 H0. pose proof (prime_state_silent w0 prerun_id cl) as Hq.
    unfold silent in *.
    destruct (prime_state prerun_id cl w0) as [[|] w1|w1];
      cbn [world_of] in Hq |- *; rewrite Hq; exact H0. }
  destruct (negb (current_state (prewarm w) =? "")).
  - pose proof (cleanup_state_silent w) as Hc.
    destruct (cleanup_state w) as [[|] w0|w0]; cbn [world_of] in Hc |- *;
      [apply Hp, Hc | exact Hc | exact Hc].
  - apply Hp. reflexivity.
Qed.

(** X2. A [kPrewarm] request sends nothing to any client: neither
    [sendReplayFinished] nor [primeState], whether it succeeds, makes the
    handler return, or only overwrites [cleanup_id]. *)
Theorem prewarm_sends_nothing w prerun_id cl :
  sent (trace (world_of (handle (kPrewarm prerun_id cl) w))) = sent (trace w)
  /\ acks (trace (world_of (handle (kPrewarm prerun_id cl) w)))
     = acks (trace w).
Proof.
  pose proof (prewarm_sends_nothing_aux w prerun_id cl) as H.
  split; [exact H|].
  rewrite <- (acks_sent (trace (world_of _))), H. apply acks_sent.
Qed.


(** What a [kReplay] request sends, by the world it starts its replay in. *)
Lemma run_replay_sent w replay_id :
  exists s,
    sent (trace (world_of (run_replay replay_id w))) = sent (trace w) ++ s
    /\ (s = []
        \/ s = [ESendReplayFinished replayConn]
        \/ exists sv,
             prewarm_service (prewarm w) = Some sv
             /\ s = [ESendReplayFinished replayConn;
                     EPrimeState sv (prewarm_id (prewarm w))
                                    (cleanup_id (prewarm w))]).
Proof.
  rewrite run_replay_eq.
  destruct (answer 0 w); [destruct (answer 2 w)|]; cbn [world_of advance trace].
  - unfold SessionSpec.replayed, prime_instruction.
    destruct (prewarm_service (prewarm w)) as [sv|] eqn:Hs.
    + destruct (pairing_complete (prewarm w)).
      * eexists. split; [no_sent|].
        right. right. exists sv. split; reflexivity.
      * eexists. split; [no_sent|]. right. left. reflexivity.
    + eexists. split; [no_sent|]. right. left. reflexivity.
  - unfold SessionSpec.replayed.
    eexists. split; [no_sent|]. right. left. reflexivity.
  - exists []. split; [no_sent|]. left. reflexivity.
Qed.

(** X3. A [kReplay] request sends at most one [sendReplayFinished], always
    to the connection that made the request, and at most one [primeState],
    which comes after the acknowledgement; it sends nothing else. *)
Theorem replay_sends w replay_id dependent_id :
  exists s,
    sent (trace (world_of (handle (kReplay replay_id dependent_id) w)))
    = sent (trace w) ++ s
    /\ (s = []
        \/ s = [ESendReplayFinished replayConn]
        \/ exists sv pid cid,
             s = [ESendReplayFinished replayConn; EPrimeState sv pid cid]).
Proof.
  rewrite handle_replay_eq.
  pose proof (enter_dependent_state_silent w dependent_id) as He.
  unfold silent in He.
  destruct (enter_dependent_state dependent_id w) as [u w1|w1];
    cbn [world_of] in He.
  - destruct (run_replay_sent w1 replay_id) as (s & Hs & Hc).
    exists s. rewrite Hs, He. split; [reflexivity|].
    destruct Hc as [H|[H|(sv & _ & H)]]; [left|right; left|right; right];
      try exact H.
    exists sv. eexists. eexists. exact H.
  - exists []. cbn [world_of]. rewrite He, app_nil_r.
    split; [reflexivity | left; reflexivity].
Qed.

(** *** Acknowledgements over a session *)

Lemma handle_acks w req :
  acks (trace (world_of (handle req w)))
  <= acks (trace w) + (if is_replay req then 1 else 0).
Proof.
  destruct req as [r d|p c|]; cbn [is_replay].
  - rewrite handle_replay_eq.
    pose proof (enter_dependent_state_silent w d) as He. unfold silent in He.
    destruct (enter_dependent_state d w) as [u w1|w1]; cbn [world_of] in He.
    + destruct (run_replay_sent w1 r) as (s & Hs & Hc).
      rewrite <- (acks_sent (trace (world_of (run_replay r w1)))), Hs, He.
      rewrite SessionFacts.acks_app, acks_sent.
      destruct Hc as [->|[->|(sv & _ & ->)]]; cbn; lia.
    + cbn [world_of]. rewrite <- (acks_sent (trace w1)), He, acks_sent. lia.
  - rewrite <- acks_sent, prewarm_sends_nothing_aux, acks_sent. lia.
  - cbn. lia.
Qed.

(** X4. Over a whole session the handler sends at most as many
    [sendReplayFinished] as it was given [kReplay] requests. *)
Theorem acks_le_replays reqs :
  forall w,
    acks (trace (world_of (serve reqs w))) <= acks (trace w) + replays reqs.
Proof.
  induction reqs as [|req rest IH]; intros w; [cbn; lia|].
  pose proof (handle_acks w req) as Hh.
  assert (Hr : replays (req :: rest)
               = (if is_replay req then 1 else 0) + replays rest).
  { unfold replays. cbn [filter]. destruct (is_replay req); reflexivity. }
  rewrite Hr. cbn [Session.serve]. unfold bind.
  destruct (handle req w) as [[|] w1|w1]; cbn [world_of] in Hh |- *.
  - specialize (IH w1). lia.
  - unfold ret. cbn [world_of]. lia.
  - lia.
Qed.

(** *** Registered targets and null pointers *)

Lemma registered_reset p :
  registered p = true -> registered (set_current_state "" p) = true.
Proof.
  intros H. apply andb_prop in H as [H _].
  apply andb_true_intro. split; [exact H | reflexivity].
Qed.

Lemma cleanup_state_registered w :
  registered (prewarm w) = true ->
  registered (prewarm (world_of (cleanup_state w))) = true.
Proof.
  intros H. destruct (prewarm_context (prewarm w)) as [c|] eqn:Hc.
  - rewrite (cleanup_state_eq w c Hc). cbv zeta.
    destruct (answer 0 w), (answer 1 w), (answer 2 w); cbn;
      assumption || reflexivity.
  - rewrite (cleanup_state_null w Hc). exact H.
Qed.

Lemma prime_state_registered w state cl :
  registered (prewarm w) = true ->
  registered (prewarm (world_of (prime_state state cl w))) = true.
Proof.
  intros H. rewrite prime_state_eq. cbv zeta.
  destruct (answer 0 w), (answer 1 w); cbn [world_of advance prewarm];
    try exact H.
  destruct (negb (empty cl)); [|exact H].
  unfold registered.
  cbn [prewarm_service prewarm_context prewarm_id current_state is_set].
  rewrite String.eqb_refl, orb_true_r. reflexivity.
Qed.

Lemma enter_dependent_state_registered w dependent_id :
  registered (prewarm w) = true ->
  registered (prewarm (world_of (enter_dependent_state dependent_id w))) = true.
Proof.
  intros H. unfold Session.enter_dependent_state, bind, get.
  destruct (negb (current_state (prewarm w) =? dependent_id)); [|exact H].
  pose proof (cleanup_state_registered w H) as Hc.
  destruct (cleanup_state w) as [b w2|w2]; cbn [world_of] in Hc; [|exact Hc].
  destruct (negb (dependent_id =? "")); [|exact Hc].
  pose proof (prime_state_registered w2 dependent_id "" Hc) as Hp.
  destruct (prime_state dependent_id "" w2); exact Hp.
Qed.

Lemma handle_registered w req :
  registered (prewarm w) = true ->
  registered (prewarm (world_of (handle req w))) = true.
Proof.
  intros H. destruct req as [r d|p c|]; [| |exact H].
  - rewrite handle_replay_eq.
    pose proof (enter_dependent_state_registered w d H) as He.
    destruct (enter_dependent_state d w) as [u w1|w1]; cbn [world_of] in He;
      [|exact He].
    rewrite run_replay_eq.
    destruct (answer 0 w1), (answer 2 w1); cbn [world_of advance prewarm];
      try exact He.
    apply registered_reset, He.
  - rewrite handle_prewarm_eq.
    destruct (current_state (prewarm w) =? p); [exact H|].
    assert (Hv : forall w0, registered (prewarm w0) = true ->
                 registered
                   (prewarm
                      (world_of
                         match prime_state p c w0 with
                         | Val true w1 => Val Next w1
                         | Val false w1 => Val Return w1
                         | NullDeref w1 => NullDeref w1
                         end)) = true).
    { intros w0 H0. pose proof (prime_state_registered w0 p c H0) as Hq.
      destruct (prime_state p c w0) as [[|] w1|w1]; exact Hq. }
    destruct (negb (current_state (prewarm w) =? "")).
    + pose proof (cleanup_state_registered w H) as Hq.
      destruct (cleanup_state w) as [[|] w0|w0]; cbn [world_of] in Hq |- *;
        auto.
    + apply Hv, H.
Qed.

(** X5. Whatever the requests and the answers of the contexts, and
    whichever connection serves them, the handler keeps this about
    [PrewarmData]: [prewarm_service] and [prewarm_context] are null
    together, and whenever [current_state] is not empty it equals
    [prewarm_id] and [prewarm_context] is not null.  It holds of the
    initial [PrewarmData]. *)
Theorem registered_kept reqs :
  forall w,
    registered (prewarm w) = true ->
    registered (prewarm (world_of (serve reqs w))) = true.
Proof.
  induction reqs as [|req rest IH]; intros w H; [exact H|].
  pose proof (handle_registered w req H) as Hh.
  cbn [Session.serve]. unfold bind.
  destruct (handle req w) as [[|] w1|w1]; cbn [world_of] in Hh |- *.
  - apply IH, Hh.
  - exact Hh.
  - exact Hh.
Qed.

(** X6. In a state the handler can reach, a request runs into the null
    [prewarm_context] exactly when it is a [kReplay] with a non-empty
    [dependent_id] arriving while no state is loaded and no target is
    registered.  No [kPrewarm] request does, and no [kReplay] whose
    [dependent_id] is empty or is the loaded state. *)
Theorem null_deref_iff w req :
  registered (prewarm w) = true ->
  is_null_deref (handle req w) = true <->
  exists replay_id dependent_id,
    req = kReplay replay_id dependent_id
    /\ dependent_id <> ""
    /\ current_state (prewarm w) = ""
    /\ prewarm_context (prewarm w) = None.
Proof.
  intros H. unfold registered in H. apply andb_prop in H as [_ H].
  destruct req as [r d|p c|].
  - rewrite handle_replay_eq.
    unfold Session.enter_dependent_state, bind, get.
    destruct (current_state (prewarm w) =? d) eqn:Hd; cbn [negb].
    + unfold ret. rewrite run_replay_eq.
      apply String.eqb_eq in Hd. split.
      * destruct (answer 0 w), (answer 2 w); discriminate.
      * intros (r' & d' & [= _ <-] & Hne & Hcs & _). congruence.
    + destruct (prewarm_context (prewarm w)) as [cx|] eqn:Hc.
      * split; [|intros (_ & _ & _ & _ & _ & Hn); discriminate].
        assert (Hp : forall w2,
                   is_null_deref
                     (match (if negb (d =? "")
                             then bind (prime_state d "")
                                       (fun _ => ret tt)
                             else ret tt) w2 with
                      | Val _ w1 => run_replay r w1
                      | NullDeref w1 => NullDeref w1
                      end) = false).
        { intros w2. unfold bind, ret.
          destruct (negb (d =? "")).
          - rewrite prime_state_eq. cbv zeta.
            destruct (answer 0 w2), (answer 1 w2); rewrite run_replay_eq;
              match goal with
              | |- context [SessionSpec.answer oracle 0 ?x] =>
                  destruct (SessionSpec.answer oracle 0 x),
                           (SessionSpec.answer oracle 2 x)
              end; reflexivity.
          - rewrite run_replay_eq.
            destruct (answer 0 w2), (answer 2 w2); reflexivity. }
        rewrite (cleanup_state_eq w cx Hc). cbv zeta.
        destruct (answer 0 w), (answer 1 w), (answer 2 w);
          rewrite Hp; discriminate.
      * rewrite (cleanup_state_null w Hc). split.
        -- intros _. exists r, d.
           destruct (empty (current_state (prewarm w))) eqn:He;
             [|discriminate].
           apply String.eqb_eq in He.
           split; [reflexivity|]. split; [|split; [exact He | reflexivity]].
           intros ->. rewrite He in Hd. discriminate.
        -- reflexivity.
  - split; [|intros (r' & d' & Hq & _); discriminate].
    rewrite handle_prewarm_eq.
    destruct (current_state (prewarm w) =? p); [discriminate|].
    assert (Hp : forall w0,
               is_null_deref
                 match prime_state p c w0 with
                 | Val true w1 => Val Next w1
                 | Val false w1 => Val Return w1
                 | NullDeref w1 => @NullDeref Flow w1
                 end = false).
    { intros w0. rewrite prime_state_eq. cbv zeta.
      destruct (answer 0 w0), (answer 1 w0); reflexivity. }
    destruct (current_state (prewarm w) =? "") eqn:Hcs; cbn [negb].
    + rewrite Hp. discriminate.
    + unfold empty in H. rewrite Hcs in H. cbn [orb] in H.
      apply andb_prop in H as [H _].
      destruct (prewarm_context (prewarm w)) as [cx|] eqn:Hc;
        [|discriminate].
      rewrite (cleanup_state_eq w cx Hc). cbv zeta.
      destruct (answer 0 w), (answer 1 w), (answer 2 w);
        try rewrite Hp; discriminate.
  - split; [discriminate | intros (r' & d' & Hq & _); discriminate].
Qed.

(** *** What a replay does to the pairing *)

Lemma all_initializes_app t u :
  all_initializes (t ++ u) = all_initializes t + all_initializes u.
Proof. unfold all_initializes. rewrite filter_app, length_app. reflexivity. Qed.

Lemma all_initializes_prefetched c : all_initializes (prefetched c) = 0.
Proof. unfold SessionSpec.prefetched. destruct cache; reflexivity. Qed.

(** X7. A [kReplay] request whose [dependent_id] is the loaded state calls
    neither [cleanup_state] nor [prime_state]: its first call of a context
    is [initialize(replay_id)] on the context of its own connection, no
    other [initialize] follows, it makes at most three calls that can
    fail, and it leaves the pairing as it was. *)
Theorem replay_reuses_state w replay_id dependent_id :
  current_state (prewarm w) = dependent_id ->
  exists f w' ok post,
    handle (kReplay replay_id dependent_id) w = Val f w'
    /\ trace w' = trace w ++ EInitialize context replay_id ok :: post
    /\ all_initializes post = 0
    /\ calls w' <= 3 + calls w
    /\ pairing (prewarm w') = pairing (prewarm w).
Proof.
  intros Hd. rewrite handle_replay_eq.
  unfold Session.enter_dependent_state, bind, get, ret.
  apply String.eqb_eq in Hd. rewrite Hd. cbn [negb].
  rewrite run_replay_eq.
  destruct (answer 0 w); [destruct (answer 2 w)|].
  - eexists. eexists. exists true. eexists.
    split; [reflexivity|]. split; [reflexivity|].
    split; [|split; [cbn; lia | reflexivity]].
    rewrite !all_initializes_app, all_initializes_prefetched.
    unfold prime_instruction.
    destruct (prewarm_service (prewarm w)); [|reflexivity].
    destruct (pairing_complete (prewarm w)); reflexivity.
  - eexists. eexists. exists true. eexists.
    split; [reflexivity|]. split; [reflexivity|].
    split; [|split; [cbn; lia | reflexivity]].
    rewrite !all_initializes_app, all_initializes_prefetched. reflexivity.
  - eexists. eexists. exists false. exists [].
    split; [reflexivity|]. split; [reflexivity|].
    split; [reflexivity|]. split; [cbn; lia | reflexivity].
Qed.

Lemma enter_dependent_state_prewarm w dependent_id :
  prewarm (world_of (enter_dependent_state dependent_id w)) = prewarm w
  \/ prewarm (world_of (enter_dependent_state dependent_id w))
     = PrewarmData_init.
Proof.
  unfold Session.enter_dependent_state, bind, get, ret.
  destruct (negb (current_state (prewarm w) =? dependent_id));
    [|left; reflexivity].
  assert (Hp : forall w2,
             prewarm (world_of
                        ((if negb (dependent_id =? "")
                          then fun w => match prime_state dependent_id "" w with
                                        | Val _ w' => Val tt w'
                                        | NullDeref w' => NullDeref w'
                                        end
                          else fun w => Val tt w) w2)) = prewarm w2).
  { intros w2. destruct (negb (dependent_id =? "")); [|reflexivity].
    rewrite prime_state_eq. cbv zeta.
    destruct (answer 0 w2), (answer 1 w2); reflexivity. }
  destruct (prewarm_context (prewarm w)) as [c|] eqn:Hc.
  - rewrite (cleanup_state_eq w c Hc). cbv zeta.
    destruct (answer 0 w), (answer 1 w), (answer 2 w);
      rewrite Hp; [right|left..]; reflexivity.
  - rewrite (cleanup_state_null w Hc). left. reflexivity.
Qed.

(** X8. A [kReplay] request never registers a pairing and never changes
    one: afterwards [prewarm_service], [prewarm_context], [prewarm_id] and
    [cleanup_id] are what they were and [current_state] is what it was or
    empty; or else, [cleanup_state] having succeeded, every field is back to
    its initial value.  In particular the state primed for [dependent_id] is
    not recorded as [current_state]. *)
Theorem replay_keeps_pairing w replay_id dependent_id :
  let p' := prewarm (world_of (handle (kReplay replay_id dependent_id) w)) in
  (pairing p' = pairing (prewarm w)
   /\ (current_state p' = current_state (prewarm w)
       \/ current_state p' = ""))
  \/ p' = PrewarmData_init.
Proof.
  cbv zeta. rewrite handle_replay_eq.
  pose proof (enter_dependent_state_prewarm w dependent_id) as He.
  destruct (enter_dependent_state dependent_id w) as [u w1|w1];
    cbn [world_of] in He |- *.
  - rewrite run_replay_eq.
    destruct (answer 0 w1), (answer 2 w1); cbn [world_of advance prewarm];
      destruct He as [-> | ->]; auto.
  - destruct He as [-> | ->]; auto.
Qed.

(** X23. When [prime_state] fails for a [kPrewarm] request, its
    [initialize] or its [interpret] having failed, the handler returns at
    once: the requests that follow are not looked at, nothing is recorded
    for [prerun_id], and [PrewarmData] is as the clean-up of the previous
    state left it. *)
Theorem prewarm_prime_failure_fatal w prerun_id cl w0 :
  current_state (prewarm w) <> prerun_id ->
  SessionSpec.vacated oracle cache w w0 ->
  answer 0 w0 && answer 1 w0 = false ->
  exists w' ok,
    handle (kPrewarm prerun_id cl) w = Val Return w'
    /\ (forall rest, serve (kPrewarm prerun_id cl :: rest) w = Val Returned w')
    /\ prewarm w' = prewarm w0
    /\ (trace w' = trace w0 ++ [EInitialize context prerun_id false]
        \/ trace w' =
           trace w0 ++ EInitialize context prerun_id ok
                    :: prefetched context
                    ++ [EInterpret context (Some false) false]).
Proof.
  intros Hne Hv Ha.
  assert (Hp : exists w' ok,
             prime_state prerun_id cl w0 = Val false w'
             /\ prewarm w' = prewarm w0
             /\ (trace w' = trace w0 ++ [EInitialize context prerun_id false]
                 \/ trace w' =
                    trace w0 ++ EInitialize context prerun_id ok
                             :: prefetched context
                             ++ [EInterpret context (Some false) false])).
  { rewrite prime_state_eq. cbv zeta.
    destruct (answer 0 w0); [destruct (answer 1 w0); [discriminate|]|].
    - eexists. exists true. split; [reflexivity|]. split; [reflexivity|].
      right. reflexivity.
    - eexists. exists false. split; [reflexivity|]. split; [reflexivity|].
      left. reflexivity. }
  destruct Hp as (w' & ok & Hp & Hpre & Htr).
  assert (Hh : handle (kPrewarm prerun_id cl) w = Val Return w').
  { rewrite handle_prewarm_eq. apply String.eqb_neq in Hne. rewrite Hne.
    unfold SessionSpec.vacated in Hv.
    destruct (current_state (prewarm w) =? ""); cbn [negb].
    - subst w0. rewrite Hp. reflexivity.
    - rewrite Hv, Hp. reflexivity. }
  exists w', ok. split; [exact Hh|]. split; [|split; assumption].
  intros rest. apply (SessionFacts.serve_return _ _ _ _ _ _ _ _ Hh).
Qed.

Lemma prewarm_next_records w prerun_id cl w1 :
  cl <> "" ->
  current_state (prewarm w) <> prerun_id ->
  handle (kPrewarm prerun_id cl) w = Val Next w1 ->
  prewarm w1
  = mkPrewarmData (Some replayConn) (Some context) prerun_id cl prerun_id.
Proof.
  intros Hcl Hne. rewrite handle_prewarm_eq.
  apply String.eqb_neq in Hne. rewrite Hne. apply String.eqb_neq in Hcl.
  assert (Hp : forall w0,
             match prime_state prerun_id cl w0 with
             | Val true w1 => Val Next w1
             | Val false w1 => Val Return w1
             | NullDeref w1 => NullDeref w1
             end = Val Next w1 ->
             prewarm w1
             = mkPrewarmData (Some replayConn) (Some context)
                             prerun_id cl prerun_id).
  { intros w0. rewrite prime_state_eq. cbv zeta.
    unfold empty. rewrite Hcl. cbn [negb].
    destruct (answer 0 w0); [|discriminate].
    destruct (answer 1 w0); [|discriminate].
    intros [= <-]. reflexivity. }
  destruct (negb (current_state (prewarm w) =? "")).
  - destruct (cleanup_state w) as [[|] w0|w0]; try discriminate. apply Hp.
  - apply Hp.
Qed.

End Facts.

(** *** Two connections on the shared [PrewarmData] *)

Section Handoff.

Variable oracle : nat -> bool.
Variable cache : bool.

(** The connection that primes, and the connection that comes next. *)
Variable connA : Service.
Variable ctxA : ContextPtr.
Variable connB : Service.
Variable ctxB : ContextPtr.

Local Abbreviation handleA := (handle oracle cache connA ctxA).
Local Abbreviation handleB := (handle oracle cache connB ctxB).
Local Abbreviation answer := (answer oracle).

(** X9. When connection A has primed the non-empty state [S] with the
    non-empty clean-up [C], and connection B then replays with
    [dependent_id = S] and its [initialize] and [cleanup] succeed, the
    replay runs on B's own context, the acknowledgement goes to B, and
    [primeState(S, C)] goes to A, which stays the registered target. *)
Theorem prime_instruction_goes_to_primer w state cl replay_id w1 :
  state <> "" ->
  cl <> "" ->
  current_state (prewarm w) <> state ->
  handleA (kPrewarm state cl) w = Val Next w1 ->
  answer 0 w1 = true ->
  answer 2 w1 = true ->
  exists w2,
    handleB (kReplay replay_id state) w1 = Val Next w2
    /\ trace w2 =
       trace w1
       ++ replayed cache connB ctxB replay_id (answer 1 w1) true
       ++ [EPrimeState connA state cl]
    /\ prewarm w2 = mkPrewarmData (Some connA) (Some ctxA) state cl "".
Proof.
  intros Hs Hcl Hne Hh H0 H2.
  pose proof (prewarm_next_records oracle cache connA ctxA w state cl w1
                Hcl Hne Hh) as Hp.
  rewrite SessionFacts.handle_replay_eq.
  unfold Session.enter_dependent_state, bind, get, ret.
  rewrite Hp. cbn [current_state]. rewrite String.eqb_refl. cbn [negb].
  rewrite SessionFacts.run_replay_eq. fold (answer 0 w1) (answer 2 w1).
  rewrite H0, H2, Hp.
  apply String.eqb_neq in Hs, Hcl.
  eexists. split; [reflexivity|]. split; [|reflexivity].
  cbn [advance trace]. unfold prime_instruction, pairing_complete, empty.
  cbn [prewarm_service prewarm_id cleanup_id]. rewrite Hs, Hcl. reflexivity.
Qed.

(** X10. When a state is loaded that connection A registered, and
    connection B asks to prewarm another state with a non-empty clean-up,
    the clean-up of the old state runs on the registered context, A's, and
    the new state is primed on B's; if all five calls succeed B becomes the
    registered target for the new pairing. *)
Theorem prewarm_takes_over w prerun_id cl :
  prewarm_context (prewarm w) = Some ctxA ->
  current_state (prewarm w) <> "" ->
  current_state (prewarm w) <> prerun_id ->
  cl <> "" ->
  (forall k, k < 5 -> answer k w = true) ->
  exists w',
    handleB (kPrewarm prerun_id cl) w = Val Next w'
    /\ trace w' =
       trace w
       ++ (EInitialize ctxA (cleanup_id (prewarm w)) true
           :: prefetched cache ctxA
           ++ [EInterpret ctxA None true; ECleanup ctxA true])
       ++ primed cache ctxB prerun_id
    /\ prewarm w'
       = mkPrewarmData (Some connB) (Some ctxB) prerun_id cl prerun_id.
Proof.
  intros Hc Hcs Hne Hcl Ha.
  rewrite SessionFacts.handle_prewarm_eq.
  apply String.eqb_neq in Hcs, Hne, Hcl. rewrite Hne, Hcs. cbn [negb].
  rewrite (SessionFacts.cleanup_state_eq oracle cache w ctxA Hc). cbv zeta.
  fold (answer 0 w) (answer 1 w) (answer 2 w).
  rewrite (Ha 0), (Ha 1), (Ha 2) by lia.
  rewrite SessionFacts.prime_state_eq. cbv zeta.
  unfold SessionSpec.answer, advance. cbn [calls].
  pose proof (Ha 3 ltac:(lia)) as H3. pose proof (Ha 4 ltac:(lia)) as H4.
  unfold SessionSpec.answer in H3, H4.
  replace (0 + (3 + calls w)) with (3 + calls w) by lia.
  replace (1 + (3 + calls w)) with (4 + calls w) by lia.
  rewrite H3, H4. unfold empty. rewrite Hcl. cbn [negb].
  eexists. split; [reflexivity|]. split; [|reflexivity].
  cbn [trace]. unfold SessionSpec.primed.
  rewrite <- !app_assoc. reflexivity.
Qed.

End Handoff.

(** *** The further facts at concrete requests *)

Lemma registered_kept_witness :
  registered (prewarm World_init) = true
  /\ registered
       (prewarm (world_of
          (serve all_ok true 7 9
             [kPrewarm "A" ""; kPrewarm "" "C"; kReplay "r" "A"] World_init)))
     = true.
Proof.
  split; [reflexivity|].
  exact (registered_kept all_ok true 7 9
           [kPrewarm "A" ""; kPrewarm "" "C"; kReplay "r" "A"]
           World_init eq_refl).
Defined.

Lemma null_deref_iff_witness :
  registered (prewarm World_init) = true
  /\ is_null_deref (handle all_ok true 7 9 (kReplay "r" "d") World_init)
     = true.
Proof.
  split; [reflexivity|].
  apply (proj2 (null_deref_iff all_ok true 7 9 World_init (kReplay "r" "d")
                  eq_refl)).
  exists "r", "d". repeat split. discriminate.
Defined.

Lemma replay_reuses_state_witness :
  current_state (prewarm World_primed) = "A"
  /\ exists f w',
       handle all_ok true 7 9 (kReplay "r" "A") World_primed = Val f w'
       /\ pairing (prewarm w') = pairing (prewarm World_primed).
Proof.
  split; [reflexivity|].
  destruct (replay_reuses_state all_ok true 7 9 World_primed "r" "A" eq_refl)
    as (f & w' & ok & post & Hh & _ & _ & _ & Hp).
  exists f, w'. split; [exact Hh | exact Hp].
Defined.

Lemma prewarm_prime_failure_fatal_witness :
  exists w',
    forall rest,
      serve none_ok false 7 9 (kPrewarm "S" "C" :: rest) World_init
      = Val Returned w'.
Proof.
  assert (Hn : current_state (prewarm World_init) <> "S") by discriminate.
  destruct (prewarm_prime_failure_fatal none_ok false 7 9 World_init "S" "C"
              World_init Hn eq_refl eq_refl) as (w' & ok & _ & Hs & _).
  exists w'. exact Hs.
Defined.

Lemma prime_instruction_goes_to_primer_witness :
  exists w1 w2,
    handle all_ok false 7 9 (kPrewarm "S" "C") World_init = Val Next w1
    /\ handle all_ok false 8 10 (kReplay "r" "S") w1 = Val Next w2
    /\ prewarm w2 = mkPrewarmData (Some 7) (Some 9) "S" "C" "".
Proof.
  eexists.
  assert (Hs : "S" <> "") by discriminate.
  assert (Hc : "C" <> "") by discriminate.
  assert (Hn : current_state (prewarm World_init) <> "S") by discriminate.
  destruct (prime_instruction_goes_to_primer all_ok false 7 9 8 10 World_init
              "S" "C" "r" _ Hs Hc Hn eq_refl eq_refl eq_refl)
    as (w2 & Hh & _ & Hp).
  exists w2. split; [reflexivity|]. split; [exact Hh | exact Hp].
Defined.

Lemma prewarm_takes_over_witness :
  exists w',
    handle all_ok false 8 10 (kPrewarm "B" "B_exit") World_primed = Val Next w'
    /\ prewarm w' = mkPrewarmData (Some 8) (Some 10) "B" "B_exit" "B".
Proof.
  assert (H1 : current_state (prewarm World_primed) <> "") by discriminate.
  assert (H2 : current_state (prewarm World_primed) <> "B") by discriminate.
  assert (H3 : "B_exit" <> "") by discriminate.
  destruct (prewarm_takes_over all_ok false 9 8 10 World_primed "B" "B_exit"
              eq_refl H1 H2 H3 (fun _ _ => eq_refl))
    as (w' & Hh & _ & Hp).
  exists w'. split; [exact Hh | exact Hp].
Defined.

End SessionMore.

(** ** Facts about the command line *)

Module CommandLineFacts.
Import CommandLine.

Lemma mode_le_refl m : mode_le m m = true.
Proof. destruct m; reflexivity. Qed.

Lemma mode_le_trans a b c :
  mode_le a b = true -> mode_le b c = true -> mode_le a c = true.
Proof. destruct a, b, c; cbn; intros; congruence. Qed.

Lemma mode_le_SetMode_server o :
  mode_le (mode o) (mode (SetMode kReplayServer o)) = true.
Proof. unfold SetMode. cbn. destruct (mode o); reflexivity. Qed.

Lemma mode_le_SetMode_archive o :
  mode_le (mode o) (mode (SetMode kReplayArchive o)) = true.
Proof. unfold SetMode. cbn. destruct (mode o); reflexivity. Qed.

Section Facts.

Variable LOG_LEVEL : LogLevel.
Variable atoi : string -> Z.

Local Abbreviation Parse_from := (Parse_from atoi).
Local Abbreviation Parse := (Parse LOG_LEVEL atoi).
Local Abbreviation main := (main LOG_LEVEL atoi).

(** One round of the loop of [Parse], by the argument it looks at. *)
Ltac parse_round :=
  cbn [CommandLine.Parse_from app];
  repeat match goal with
         | |- context [if ?c then _ else _] => destruct c
         end.

Lemma Parse_from_app_le n :
  forall a, List.length a <= n ->
  forall b o o1,
    Parse_from a o = Ok o1 -> Parse_from (a ++ b) o = Parse_from b o1.
Proof.
  induction n as [|n IH]; intros [|x rest] Hl b o o1; cbn [List.length] in Hl;
    try lia; try (intros [= <-]; reflexivity).
  parse_round;
    try (apply IH; lia);
    try discriminate;
    destruct rest as [|v rest']; try discriminate;
    cbn [app List.length] in *;
    try (apply IH; lia).
  destruct (log_level_of v); [apply IH; lia | discriminate].
Qed.

Lemma Parse_from_app a b o o1 :
  Parse_from a o = Ok o1 -> Parse_from (a ++ b) o = Parse_from b o1.
Proof. apply (Parse_from_app_le (List.length a)). lia. Qed.

Lemma Parse_from_is_ok_le n :
  forall a, List.length a <= n ->
  forall o o', is_ok (Parse_from a o) = is_ok (Parse_from a o').
Proof.
  induction n as [|n IH]; intros [|x rest] Hl o o'; cbn [List.length] in Hl;
    try lia; try reflexivity.
  parse_round;
    try (apply IH; lia);
    try reflexivity;
    destruct rest as [|v rest']; try reflexivity;
    cbn [List.length] in *;
    try (apply IH; lia).
  destruct (log_level_of v); [apply IH; lia | reflexivity].
Qed.

Lemma Parse_from_mode_le n :
  forall a, List.length a <= n ->
  forall o o', Parse_from a o = Ok o' -> mode_le (mode o) (mode o') = true.
Proof.
  induction n as [|n IH]; intros [|x rest] Hl o o'; cbn [List.length] in Hl;
    try lia; try (intros [= <-]; apply mode_le_refl).
  assert (Hs : forall o1 rest1,
             List.length rest1 <= n ->
             mode_le (mode o) (mode o1) = true ->
             Parse_from rest1 o1 = Ok o' ->
             mode_le (mode o) (mode o') = true).
  { intros o1 rest1 Hn Hm Hp. eapply mode_le_trans; [exact Hm|].
    apply (IH rest1 Hn o1 o' Hp). }
  parse_round;
    try discriminate;
    try (destruct rest as [|v rest']; [discriminate|]);
    cbn [List.length] in *;
    try (destruct (log_level_of v); [|discriminate]);
    apply Hs; try lia;
    first [ apply mode_le_SetMode_server
          | apply mode_le_SetMode_archive
          | apply mode_le_refl ].
Qed.

(** X11. Arguments are parsed from left to right without looking back:
    when a list of arguments parses, parsing it followed by more arguments
    is parsing those from the options it gave.  Whether a list of arguments
    parses does not depend on the options the parse starts from. *)
Theorem Parse_from_composes a b o o1 o' :
  (Parse_from a o = Ok o1 -> Parse_from (a ++ b) o = Parse_from b o1)
  /\ is_ok (Parse_from a o) = is_ok (Parse_from a o').
Proof.
  split.
  - apply Parse_from_app.
  - apply (Parse_from_is_ok_le (List.length a)). lia.
Qed.

(** X12. Parsing only moves the mode up: from [kUnknown] to
    [kReplayServer] or [kReplayArchive], and from either to [kConflict].  So
    once arguments of both kinds have been seen, whatever follows, [main]
    neither starts a server nor replays an archive: it prints the help or
    the version if asked to, and reports the conflict otherwise. *)
Theorem conflict_is_final a b o1 :
  (forall o, Parse_from a o = Ok o1 -> mode_le (mode o) (mode o1) = true)
  /\ (forall prog w act,
         Parse (prog :: a) = Ok o1 ->
         mode o1 = kConflict ->
         main (prog :: a ++ b) = Dispatched w act ->
         exists code, exit_code act = Some code).
Proof.
  split.
  - intros o. apply (Parse_from_mode_le (List.length a)). lia.
  - intros prog w act Ha Hm. unfold CommandLine.main, CommandLine.Parse in *.
    cbn [tl] in *. rewrite (Parse_from_app a b _ o1 Ha).
    destruct (Parse_from b o1) as [o2|msg] eqn:Hb; [|discriminate].
    pose proof (Parse_from_mode_le (List.length b) b (le_n _) o1 o2 Hb) as Hle.
    rewrite Hm in Hle.
    assert (H2 : mode o2 = kConflict) by (destruct (mode o2); discriminate || reflexivity).
    unfold dispatch. rewrite H2. cbn [ReplayMode_eqb].
    intros [= _ <-]. destruct (help o2); [eexists; reflexivity|].
    destruct (version o2); eexists; reflexivity.
Qed.

(** X13. An argument that takes a value is fatal when it comes last: the
    parse stops in [GAPID_FATAL] with its usage message and reads nothing
    past the end of [argv]. *)
Theorem value_flag_last_is_fatal a f o o1 :
  In f value_flags ->
  Parse_from a o = Ok o1 ->
  exists msg, Parse_from (a ++ [f]) o = Fatal msg.
Proof.
  intros Hf Ha. rewrite (Parse_from_app a [f] o o1 Ha).
  unfold value_flags in Hf. cbn [In] in Hf.
  repeat (destruct Hf as [<-|Hf]; [eexists; reflexivity|]).
  contradiction.
Qed.

(** X14. The help text and the parser disagree on one option.  Every
    option the help text names is accepted, except [--cleanup-disk-cache]:
    wherever the parser meets it, it stops with "Unknown argument".  The
    spelling the parser accepts is [--cleanup-on-disk-cache], which the help
    text does not name; it sets [cleanUp] and leaves the mode alone. *)
Theorem help_names_unknown_option rest o :
  In "--cleanup-disk-cache" (documented_options PrintHelp)
  /\ Parse_from ("--cleanup-disk-cache" :: rest) o
     = Fatal "Unknown argument: --cleanup-disk-cache"
  /\ ~ In "--cleanup-on-disk-cache" (documented_options PrintHelp)
  /\ Parse_from ("--cleanup-on-disk-cache" :: rest) o
     = Parse_from rest
         (set_onDiskCacheOptions (set_cleanUp true (onDiskCacheOptions o)) o)
  /\ (forall f,
         In f (documented_options PrintHelp) ->
         f <> "--cleanup-disk-cache" ->
         Parse_from [f] o <> Fatal ("Unknown argument: " ++ f)).
Proof.
  split; [vm_compute; tauto|].
  split; [reflexivity|].
  split; [vm_compute; intuition discriminate|].
  split; [reflexivity|].
  intros f Hf Hne. vm_compute in Hf.
  repeat (destruct Hf as [<-|Hf];
          [first [ congruence
                 | cbn [CommandLine.Parse_from String.eqb Ascii.eqb Bool.eqb
                        orb]; discriminate ]|]).
  contradiction.
Qed.

End Facts.

Lemma conflict_is_final_witness :
  exists act,
    main LOG_LEVEL_INFO (fun _ => 0%Z)
         (["gapir"; "--replay-archive"; "dir"; "--port"; "1"]
            ++ ["--wait-for-debugger"])
    = Dispatched true act
    /\ exit_code act = Some Archive.EXIT_FAILURE.
Proof.
  eexists. split; [reflexivity|].
  destruct (proj2 (conflict_is_final LOG_LEVEL_INFO (fun _ => 0%Z)
                     ["--replay-archive"; "dir"; "--port"; "1"]
                     ["--wait-for-debugger"] _)
                  "gapir" _ _ eq_refl eq_refl eq_refl) as [code Hc].
  reflexivity.
Defined.

Lemma value_flag_last_is_fatal_witness :
  In "--port" value_flags
  /\ exists msg,
       Parse_from (fun _ => 0%Z) (["--enable-disk-cache"] ++ ["--port"])
                  (Options_init LOG_LEVEL_INFO) = Fatal msg.
Proof.
  assert (H : In "--port" value_flags) by (cbn; tauto).
  split; [exact H|].
  exact (value_flag_last_is_fatal (fun _ => 0%Z) ["--enable-disk-cache"]
           "--port" (Options_init LOG_LEVEL_INFO) _ H eq_refl).
Defined.

Lemma Parse_from_composes_witness :
  Parse_from (fun _ => 0%Z) (["--log"; "--help"] ++ ["--version"])
             (Options_init LOG_LEVEL_INFO)
  = Parse_from (fun _ => 0%Z) ["--version"]
      (set_logPath "--help" (Options_init LOG_LEVEL_INFO)).
Proof.
  exact (proj1 (Parse_from_composes (fun _ => 0%Z) ["--log"; "--help"]
                  ["--version"] (Options_init LOG_LEVEL_INFO) _
                  (Options_init LOG_LEVEL_INFO))
               eq_refl).
Defined.

Lemma help_names_unknown_option_witness :
  Parse_from (fun _ => 0%Z) ["--port"] (Options_init LOG_LEVEL_INFO)
  <> Fatal "Unknown argument: --port".
Proof.
  apply (proj2 (proj2 (proj2 (proj2
           (help_names_unknown_option (fun _ => 0%Z) []
              (Options_init LOG_LEVEL_INFO)))))).
  - vm_compute. tauto.
  - discriminate.
Defined.

End CommandLineFacts.

(** ** Facts about [replayArchive] *)

Module ArchiveFacts.
Import Session SessionSpec Archive.

(** X15. With a context, [replayArchive] returns [EXIT_SUCCESS] exactly
    when [initialize("payload")], [interpret] and [cleanup] all succeed.
    When [initialize] fails it returns without acknowledging; otherwise it
    sends [sendReplayFinished] once, after [interpret] and before
    [cleanup], and still runs [cleanup] when [interpret] failed.  Without a
    context, [Context::create] having returned null, it stops at the null
    pointer before any call. *)
Theorem replayArchive_exit oracle service c w :
  (exists w',
      replayArchive oracle service (Some c) w
      = Val (if answer oracle 0 w && answer oracle 1 w && answer oracle 2 w
             then EXIT_SUCCESS else EXIT_FAILURE) w'
      /\ trace w' =
         trace w
         ++ (if answer oracle 0 w
             then [EInitialize c "payload" true;
                   EInterpret c None (answer oracle 1 w);
                   ESendReplayFinished service;
                   ECleanup c (answer oracle 2 w)]
             else [EInitialize c "payload" false])
      /\ prewarm w' = prewarm w)
  /\ replayArchive oracle service None w = NullDeref w.
Proof.
  split; [|reflexivity].
  destruct w as [p n t].
  cbv [replayArchive initialize interpret cleanup ask emit deref bind ret
       answer].
  cbn [prewarm calls trace Nat.add negb].
  destruct (oracle n); cbn [prewarm calls trace negb andb];
    [|eexists; split; [reflexivity|]; split; reflexivity].
  destruct (oracle (S n)); cbn [prewarm calls trace negb andb];
    destruct (oracle (S (S n))); cbn [prewarm calls trace negb andb];
    eexists; (split; [reflexivity|]); cbn [trace prewarm];
    rewrite <- ?app_assoc; split; reflexivity.
Qed.

End ArchiveFacts.

(** ** Facts about [startServer] *)

Module StartupFacts.
Import CommandLine Startup.

Lemma to_uint_not_Nil n : Nat.to_uint n <> Decimal.Nil.
Proof.
  intros H. pose proof (DecimalNat.Unsigned.of_to n) as Hn.
  rewrite H in Hn. cbn in Hn. subst n. discriminate.
Qed.

Lemma to_string_zero n : to_string n = "0"%string -> n = 0.
Proof.
  unfold to_string. intros H.
  pose proof (NilZero.usu (Nat.to_uint n) (to_uint_not_Nil n)) as Hu.
  rewrite H in Hu. cbn in Hu. injection Hu as Hu.
  apply DecimalNat.Unsigned.to_uint_inj. rewrite <- Hu. reflexivity.
Qed.

Lemma skipn_repeat_succ {A} (x : A) n : skipn n (repeat x (n + 1)) = [x].
Proof. induction n as [|n IH]; [reflexivity | exact IH]. Qed.

Lemma resize_inr env n v :
  resize env n = inr v -> v = repeat NUL (N.to_nat n).
Proof.
  unfold resize. destruct (N.ltb (max_size env) n); [discriminate|].
  destruct (negb (N.eqb n 0) && negb (allocates env n)); [discriminate|].
  intros [= <-]. reflexivity.
Qed.

(** A vector that is not empty after [resize(size + 1, 0)] has [size + 1]
    bytes: the sum did not wrap. *)
Lemma resize_size_plus_one env size v :
  resize env (size_plus_one env size) = inr v ->
  v <> [] ->
  v = repeat NUL (size + 1).
Proof.
  intros Hr Hv. apply resize_inr in Hr. subst v. unfold size_plus_one in *.
  destruct (N.eqb (N.of_nat size) (SIZE_MAX env)).
  - exfalso. apply Hv. reflexivity.
  - f_equal. lia.
Qed.

(** When the first block of [startServer] ends with the vector. *)
Lemma read_auth_token_vector env opts v :
  read_auth_token env opts = TokenVector v ->
  match authTokenFile opts with
  | None => v = []
  | Some name =>
      exists file,
        fopen env name = Some file
        /\ fseek_end file = true
        /\ List.length (fread file) = ftell file
        /\ v = fread file ++ [NUL]
  end.
Proof.
  unfold read_auth_token.
  destruct (authTokenFile opts) as [name|]; [|intros [= <-]; reflexivity].
  destruct (fopen env name) as [file|]; [|discriminate].
  destruct (fseek_end file) eqn:Hs; cbn [negb]; [|discriminate].
  destruct (resize env (size_plus_one env (ftell file))) as [e|tok] eqn:Hr;
    [discriminate|].
  destruct tok as [|c tok]; [discriminate|].
  destruct (Nat.eqb (List.length (fread file)) (ftell file)) eqn:Hl;
    cbn [negb]; [|discriminate].
  apply Nat.eqb_eq in Hl.
  apply resize_size_plus_one in Hr; [|discriminate].
  intros [= <-]. exists file.
  split; [reflexivity|]. split; [exact Hs|]. split; [exact Hl|].
  rewrite Hr. unfold overwrite. rewrite Hl, skipn_repeat_succ. reflexivity.
Qed.

(** X16. When [startServer] gets as far as announcing its port, the port
    it announces is never ["0"]: a [--port] other than ["0"] is announced
    and used as given, without any check, and for ["0"] the port is the
    free port found, in decimal, which is not zero.  The URI is
    [127.0.0.1:] followed by that port. *)
Theorem announced_port os cenv env opts tok uri c out :
  startServer os cenv env opts = Bound tok uri c out ->
  exists portStr,
    portStr <> "0"%string
    /\ uri = ("127.0.0.1:" ++ portStr)%string
    /\ out = ("Bound on port '" ++ portStr ++ "'" ++ newline)%string
    /\ (if portArgStr opts =? "0"
        then getFreePort env <> 0 /\ portStr = to_string (getFreePort env)
        else portStr = portArgStr opts).
Proof.
  unfold startServer.
  destruct (read_auth_token env opts) as [msg|e| |authToken];
    try discriminate.
  unfold choose_port.
  destruct (portArgStr opts =? "0") eqn:Hp.
  - destruct (Nat.eqb (getFreePort env) 0) eqn:Hf; [discriminate|].
    apply Nat.eqb_neq in Hf.
    intros [= _ <- _ <-]. exists (to_string (getFreePort env)).
    split; [|repeat split; assumption].
    intros H. apply to_string_zero in H. contradiction.
  - intros [= _ <- _ <-]. exists (portArgStr opts).
    apply String.eqb_neq in Hp. repeat split. exact Hp.
Qed.

(** X17. When [startServer] gets as far as [Setup], the token it passes is
    null exactly when no [--auth-token-file] was given.  With a token file
    the token is the bytes read, all of the file, followed by one [NUL]: an
    empty file gives an empty token, not the absence of one. *)
Theorem auth_token_passed os cenv env opts tok uri c out :
  startServer os cenv env opts = Bound tok uri c out ->
  match authTokenFile opts with
  | None => tok = None
  | Some name =>
      exists file,
        fopen env name = Some file
        /\ fseek_end file = true
        /\ List.length (fread file) = ftell file
        /\ tok = Some (fread file ++ [NUL])
  end.
Proof.
  unfold startServer.
  destruct (read_auth_token env opts) as [msg|e| |v] eqn:Hr;
    try discriminate.
  apply read_auth_token_vector in Hr.
  destruct (choose_port env opts); [discriminate|].
  intros [= <- _ _ _].
  destruct (authTokenFile opts) as [name|].
  - destruct Hr as (file & Hf & Hs & Hl & ->). exists file.
    split; [exact Hf|]. split; [exact Hs|]. split; [exact Hl|].
    rewrite length_app. cbn [List.length]. rewrite Nat.add_1_r. reflexivity.
  - subst v. reflexivity.
Qed.

Lemma choose_port_fails env opts :
  (exists msg, choose_port env opts = inl msg) <->
  portArgStr opts = "0"%string /\ getFreePort env = 0.
Proof.
  unfold choose_port.
  destruct (portArgStr opts =? "0") eqn:Hp.
  - apply String.eqb_eq in Hp.
    destruct (Nat.eqb (getFreePort env) 0) eqn:Hg.
    + apply Nat.eqb_eq in Hg. split; [auto | intros _; eexists; reflexivity].
    + apply Nat.eqb_neq in Hg.
      split; [intros [m H]; discriminate | intros [_ H]; contradiction].
  - apply String.eqb_neq in Hp.
    split; [intros [m H]; discriminate | intros [H _]; contradiction].
Qed.

(** The first block of [startServer], case by case. *)
Lemma read_auth_token_cases env opts :
  match read_auth_token env opts with
  | TokenFatal _ =>
      exists name,
        authTokenFile opts = Some name
        /\ match fopen env name with
           | None => True
           | Some file =>
               fseek_end file = false
               \/ (fseek_end file = true
                   /\ resize env (size_plus_one env (ftell file))
                      = inr (repeat NUL (ftell file + 1))
                   /\ List.length (fread file) <> ftell file)
           end
  | TokenThrows e =>
      exists name file,
        authTokenFile opts = Some name
        /\ fopen env name = Some file
        /\ fseek_end file = true
        /\ resize env (size_plus_one env (ftell file)) = inl e
  | TokenUndefined =>
      exists name file,
        authTokenFile opts = Some name
        /\ fopen env name = Some file
        /\ fseek_end file = true
        /\ resize env (size_plus_one env (ftell file)) = inr []
  | TokenVector _ =>
      match authTokenFile opts with
      | None => True
      | Some name =>
          exists file,
            fopen env name = Some file
            /\ fseek_end file = true
            /\ resize env (size_plus_one env (ftell file))
               = inr (repeat NUL (ftell file + 1))
            /\ List.length (fread file) = ftell file
      end
  end.
Proof.
  unfold read_auth_token.
  destruct (authTokenFile opts) as [name|]; [|exact I].
  destruct (fopen env name) as [file|] eqn:Hf;
    [|exists name; rewrite Hf; auto].
  destruct (fseek_end file) eqn:Hs; cbn [negb];
    [|exists name; rewrite Hf; auto].
  destruct (resize env (size_plus_one env (ftell file))) as [e|tok] eqn:Hr.
  - exists name, file. auto.
  - destruct tok as [|c tok]; [exists name, file; auto|].
    pose proof (resize_size_plus_one env (ftell file) (c :: tok) Hr
                  ltac:(discriminate)) as Hv.
    destruct (Nat.eqb (List.length (fread file)) (ftell file)) eqn:Hl;
      cbn [negb].
    + apply Nat.eqb_eq in Hl. exists file. rewrite <- Hv. auto.
    + apply Nat.eqb_neq in Hl. exists name. split; [reflexivity|].
      rewrite Hf. right. rewrite <- Hv. auto.
Qed.

(** X18. How [startServer] can stop before it announces a port.  It stops
    in [GAPID_FATAL] exactly when the token file cannot be opened, its end
    cannot be sought, or, the vector having been resized, [fread] does not
    return the whole length; or when, the token being read, the port is
    ["0"] and no free port is found.  It stops in [std::terminate] exactly
    when [authToken.resize(size + 1, 0)] throws, as it does with
    [std::length_error] for a length, such as the one [ftell] reports for a
    directory, beyond [max_size()].  No outcome of the cache creation stops
    it. *)
Theorem startServer_stops os cenv env opts :
  ((exists msg, startServer os cenv env opts = Died msg) <->
   (exists name,
       authTokenFile opts = Some name
       /\ match fopen env name with
          | None => True
          | Some file =>
              fseek_end file = false
              \/ (fseek_end file = true
                  /\ resize env (size_plus_one env (ftell file))
                     = inr (repeat NUL (ftell file + 1))
                  /\ List.length (fread file) <> ftell file)
          end)
   \/ ((exists v, read_auth_token env opts = TokenVector v)
       /\ portArgStr opts = "0"%string /\ getFreePort env = 0))
  /\ (forall e,
         startServer os cenv env opts = Terminated e <->
         exists name file,
           authTokenFile opts = Some name
           /\ fopen env name = Some file
           /\ fseek_end file = true
           /\ resize env (size_plus_one env (ftell file)) = inl e)
  /\ (forall name file,
         authTokenFile opts = Some name ->
         fopen env name = Some file ->
         fseek_end file = true ->
         (max_size env < size_plus_one env (ftell file))%N ->
         startServer os cenv env opts = Terminated length_error).
Proof.
  pose proof (read_auth_token_cases env opts) as Hc.
  pose proof (choose_port_fails env opts) as Hp.
  unfold startServer.
  split; [|split].
  - destruct (read_auth_token env opts) as [msg|e| |v] eqn:Hr.
    + split; [intros _; left; exact Hc | intros _; eexists; reflexivity].
    + split; [intros [m H]; discriminate|].
      destruct Hc as (name & file & Hn & Hf & Hs & He).
      intros [(n & Hn' & H)|((v & Hv) & _)]; [|discriminate].
      rewrite Hn in Hn'. injection Hn' as <-. rewrite Hf in H.
      destruct H as [H|(_ & H & _)]; congruence.
    + split; [intros [m H]; discriminate|].
      destruct Hc as (name & file & Hn & Hf & Hs & He).
      intros [(n & Hn' & H)|((v & Hv) & _)]; [|discriminate].
      rewrite Hn in Hn'. injection Hn' as <-. rewrite Hf in H.
      destruct H as [H|(_ & H & _)]; [congruence|].
      rewrite He in H. injection H as H. symmetry in H.
      rewrite Nat.add_1_r in H. discriminate.
    + destruct (choose_port env opts) as [msg|portStr].
      * split; [|intros _; eexists; reflexivity].
        intros _. right. split; [exists v; reflexivity|].
        apply Hp. eexists; reflexivity.
      * split; [intros [m H]; discriminate|].
        intros [(n & Hn & H)|(_ & H)].
        -- rewrite Hn in Hc. destruct Hc as (file & Hf & Hs & He & Hl).
           rewrite Hf in H. destruct H as [H|(_ & _ & H)]; congruence.
        -- apply Hp in H. destruct H as [m H]. discriminate.
  - intros e.
    destruct (read_auth_token env opts) as [msg|e'| |v] eqn:Hr.
    + split; [discriminate|].
      destruct Hc as (name & Hn & H).
      intros (n & file & Hn' & Hf & Hs & He).
      rewrite Hn in Hn'. injection Hn' as <-. rewrite Hf in H.
      destruct H as [H|(_ & H & _)]; congruence.
    + destruct Hc as (name & file & Hn & Hf & Hs & He). split.
      * intros [= <-]. exists name, file. auto.
      * intros (n & f & Hn' & Hf' & _ & He').
        rewrite Hn in Hn'. injection Hn' as <-.
        rewrite Hf in Hf'. injection Hf' as <-. congruence.
    + split; [discriminate|].
      destruct Hc as (name & file & Hn & Hf & Hs & He).
      intros (n & f & Hn' & Hf' & _ & He').
      rewrite Hn in Hn'. injection Hn' as <-.
      rewrite Hf in Hf'. injection Hf' as <-. congruence.
    + split; [destruct (choose_port env opts); discriminate|].
      intros (n & f & Hn & Hf & _ & He). rewrite Hn in Hc.
      destruct Hc as (file & Hf' & _ & He' & _).
      rewrite Hf in Hf'. injection Hf' as <-. congruence.
  - intros name file Hn Hf Hs Hm.
    unfold read_auth_token. rewrite Hn, Hf, Hs. cbn [negb].
    unfold resize. apply N.ltb_lt in Hm. rewrite Hm. reflexivity.
Qed.

Lemma announced_port_witness :
  exists tok c,
    startServer Cache.GAPID_OS_LINUX
      (Cache.mkEnv None false (fun _ => None) (fun _ _ => false) 1024)
      (mkEnv (fun _ => None) 4000 SIZE_MAX_LP64 max_size_LP64
             (fun _ => true))
      (Options_init LOG_LEVEL_INFO)
    = Bound tok "127.0.0.1:4000" c
            ("Bound on port '4000'" ++ newline)%string.
Proof.
  eexists. eexists.
  destruct (announced_port Cache.GAPID_OS_LINUX
              (Cache.mkEnv None false (fun _ => None) (fun _ _ => false) 1024)
              (mkEnv (fun _ => None) 4000 SIZE_MAX_LP64 max_size_LP64
                     (fun _ => true))
              (Options_init LOG_LEVEL_INFO) _ _ _ _ eq_refl)
    as (portStr & _ & _ & _ & _).
  vm_compute. reflexivity.
Defined.

Lemma auth_token_passed_witness :
  exists uri c out,
    startServer Cache.GAPID_OS_LINUX
      (Cache.mkEnv None false (fun _ => None) (fun _ _ => false) 1024)
      (mkEnv (fun _ => Some (regular_file [])) 4000 SIZE_MAX_LP64
             max_size_LP64 (fun _ => true))
      (set_authTokenFile (Some "token") (Options_init LOG_LEVEL_INFO))
    = Bound (Some [NUL]) uri c out.
Proof.
  eexists. eexists. eexists.
  pose proof (auth_token_passed Cache.GAPID_OS_LINUX
                (Cache.mkEnv None false (fun _ => None) (fun _ _ => false) 1024)
                (mkEnv (fun _ => Some (regular_file [])) 4000 SIZE_MAX_LP64
                       max_size_LP64 (fun _ => true))
                (set_authTokenFile (Some "token") (Options_init LOG_LEVEL_INFO))
                _ _ _ _ eq_refl) as H.
  vm_compute. reflexivity.
Defined.

Lemma startServer_stops_witness :
  (exists msg,
      startServer Cache.GAPID_OS_LINUX
        (Cache.mkEnv None false (fun _ => None) (fun _ _ => false) 1024)
        (mkEnv (fun _ => None) 0 SIZE_MAX_LP64 max_size_LP64 (fun _ => true))
        (Options_init LOG_LEVEL_INFO)
      = Died msg)
  /\ startServer Cache.GAPID_OS_LINUX
       (Cache.mkEnv None false (fun _ => None) (fun _ _ => false) 1024)
       (mkEnv (fun _ => Some (mkFILE true 7 [])) 4000 15 7 (fun _ => true))
       (set_authTokenFile (Some "dir") (Options_init LOG_LEVEL_INFO))
     = Terminated length_error.
Proof.
  split.
  - apply (proj2 (proj1 (startServer_stops Cache.GAPID_OS_LINUX
                           (Cache.mkEnv None false (fun _ => None)
                                        (fun _ _ => false) 1024)
                           (mkEnv (fun _ => None) 0 SIZE_MAX_LP64
                                  max_size_LP64 (fun _ => true))
                           (Options_init LOG_LEVEL_INFO)))).
    right. split; [exists []; reflexivity | split; reflexivity].
  - apply (proj2 (proj2 (startServer_stops Cache.GAPID_OS_LINUX
                           (Cache.mkEnv None false (fun _ => None)
                                        (fun _ _ => false) 1024)
                           (mkEnv (fun _ => Some (mkFILE true 7 [])) 4000
                                  15 7 (fun _ => true))
                           (set_authTokenFile (Some "dir")
                              (Options_init LOG_LEVEL_INFO))))
             "dir" (mkFILE true 7 []) eq_refl eq_refl eq_refl).
    reflexivity.
Defined.

End StartupFacts.

(** ** Facts about the main loop of [android_main] *)

Module AndroidFacts.
Import AndroidMain.

Lemma count_app e t u : count e (t ++ u) = count e t + count e u.
Proof. unfold count. rewrite filter_app, length_app. reflexivity. Qed.

(** The inner loop: it shuts the server down exactly when an event left
    [destroyRequested] set, and then leaves the outer loop too. *)
Lemma poll_all_spec ps :
  snd (poll_all ps) = negb (existsb destroyRequested ps)
  /\ count Shutdown (fst (poll_all ps)) = (if snd (poll_all ps) then 0 else 1)
  /\ count ANativeActivity_finish (fst (poll_all ps)) = 0
  /\ count Join (fst (poll_all ps)) = 0.
Proof.
  induction ps as [|p ps (IH1 & IH2 & IH3 & IH4)]; [repeat split|].
  cbn [poll_all existsb].
  destruct (destroyRequested p); cbn [orb negb].
  - destruct (has_source p); repeat split.
  - destruct (poll_all ps) as [t alive]; cbn [fst snd] in *.
    rewrite !count_app, IH2, IH3, IH4.
    destruct (has_source p); repeat split; assumption.
Qed.

Lemma main_loop_spec turns :
  forall finishing,
    count ANativeActivity_finish (fst (main_loop turns finishing))
      + (if finishing then 1 else 0) <= 1
    /\ count Shutdown (fst (main_loop turns finishing))
       = (match snd (main_loop turns finishing) with
          | Some _ => 1 | None => 0 end)
    /\ count Join (fst (main_loop turns finishing)) = 0
    /\ (snd (main_loop turns finishing) = None
        <-> existsb destroy_requested turns = false)
    /\ (finishing = false ->
        existsb serverIsDone turns = false ->
        count ANativeActivity_finish (fst (main_loop turns finishing)) = 0).
Proof.
  induction turns as [|turn turns IH]; intros finishing.
  - cbn. repeat split; try reflexivity. destruct finishing; lia.
  - cbn [main_loop existsb]. unfold destroy_requested at 1.
    destruct (poll_all_spec (polls turn)) as (Ha & Hs & Hf & Hj).
    destruct (poll_all (polls turn)) as [t alive]; cbn [fst snd] in *.
    set (finish := serverIsDone turn && negb finishing).
    set (finishing' := if finish then true else finishing).
    assert (Hfin : count ANativeActivity_finish
                     (if finish then [ANativeActivity_finish] else [])
                   + (if finishing then 1 else 0)
                   = (if finishing' then 1 else 0)
                   /\ (if finishing' then 1 else 0) <= 1).
    { subst finishing' finish.
      destruct (serverIsDone turn), finishing; cbn; lia. }
    destruct Hfin as [Hfin Hle].
    assert (Hz : forall e, e <> ANativeActivity_finish ->
                 count e (if finish then [ANativeActivity_finish] else [])
                 = 0).
    { intros e He. destruct finish; [|reflexivity].
      destruct e; try reflexivity; congruence. }
    destruct alive.
    + destruct (IH finishing') as (I1 & I2 & I3 & I4 & I5).
      destruct (main_loop turns finishing') as [t' r]; cbn [fst snd] in *.
      symmetry in Ha. apply negb_true_iff in Ha. rewrite Ha. cbn [orb].
      rewrite !count_app, Hs, Hf, Hj, (Hz Shutdown), (Hz Join)
        by discriminate.
      split; [lia|]. split; [lia|]. split; [lia|]. split; [exact I4|].
      intros -> Hd. apply orb_false_iff in Hd as [Hd1 Hd2].
      subst finishing' finish. rewrite Hd1 in *. cbn in *.
      rewrite (I5 eq_refl Hd2). reflexivity.
    + cbn [fst snd]. symmetry in Ha. apply negb_false_iff in Ha.
      rewrite Ha. cbn [orb].
      rewrite !count_app, Hs, Hf, Hj, (Hz Shutdown), (Hz Join)
        by discriminate.
      split; [lia|]. split; [lia|]. split; [lia|].
      split; [split; discriminate|].
      intros -> Hd. apply orb_false_iff in Hd as [Hd1 _].
      subst finish. rewrite Hd1. reflexivity.
Qed.

(** X19. Whatever events arrive and whenever the server is done,
    [android_main] calls [ANativeActivity_finish] at most once and
    [server->shutdown()] at most once.  It leaves its loop, and joins the
    waiting thread, exactly when some event leaves [destroyRequested] set,
    the server having been shut down exactly once then; and it never calls
    [ANativeActivity_finish] unless it has read [serverIsDone] as true. *)
Theorem android_main_once turns :
  count ANativeActivity_finish (android_main turns) <= 1
  /\ count Shutdown (android_main turns) <= 1
  /\ (if existsb destroy_requested turns
      then count Shutdown (android_main turns) = 1
           /\ count Join (android_main turns) = 1
      else count Shutdown (android_main turns) = 0
           /\ count Join (android_main turns) = 0)
  /\ (existsb serverIsDone turns = false ->
      count ANativeActivity_finish (android_main turns) = 0).
Proof.
  unfold android_main.
  destruct (main_loop_spec turns false) as (H1 & H2 & H3 & H4 & H5).
  destruct (main_loop turns false) as [t r]; cbn [fst snd] in *.
  destruct r as [f|].
  - rewrite !count_app.
    assert (Hd : existsb destroy_requested turns = true).
    { destruct (existsb destroy_requested turns); [reflexivity|].
      destruct H4 as [_ H4]. discriminate (H4 eq_refl). }
    rewrite Hd. cbn. repeat split; try lia.
    intros Hs. rewrite (H5 eq_refl Hs). reflexivity.
  - rewrite (proj1 H4 eq_refl). repeat split; try lia.
    intros Hs. apply (H5 eq_refl Hs).
Qed.

Lemma android_main_once_witness :
  existsb serverIsDone
    [mkTurn [mkPoll true false] false; mkTurn [mkPoll true true] false] = false
  /\ android_main
       [mkTurn [mkPoll true false] false; mkTurn [mkPoll true true] false]
     = [Process; Process; Shutdown; Join; Unlink]
  /\ count ANativeActivity_finish
       (android_main
          [mkTurn [mkPoll true false] false; mkTurn [mkPoll true true] false])
     = 0.
Proof.
  split; [reflexivity|]. split; [reflexivity|].
  exact (proj2 (proj2 (proj2 (android_main_once
           [mkTurn [mkPoll true false] false;
            mkTurn [mkPoll true true] false]))) eq_refl).
Defined.

End AndroidFacts.

(** ** Further facts about the cache and its monitor *)

Module CacheMore.
Import Cache.

(** X20. [getTempOnDiskCachePath] returns a directory exactly when
    [TMPDIR] is set, or else [/tmp] is a directory, and [mkdtemp] succeeds
    on [gapir-cache.XXXXXX] under it; the directory is the one [mkdtemp]
    made.  [TMPDIR], when set, is used without looking at [/tmp].  In every
    other case the result is the empty string. *)
Theorem getTempOnDiskCachePath_spec env p :
  p <> "" ->
  getTempOnDiskCachePath env = p <->
  exists d,
    (TMPDIR env = Some d
     \/ (TMPDIR env = None /\ tmp_is_dir env = true /\ d = "/tmp"))
    /\ mkdtemp env (d ++ "/gapir-cache.XXXXXX")%string = Some p.
Proof.
  intros Hp. unfold getTempOnDiskCachePath.
  destruct (TMPDIR env) as [d|].
  - destruct (mkdtemp env (d ++ "/gapir-cache.XXXXXX")%string) as [q|] eqn:Hm.
    + split.
      * intros <-. exists d. split; [left; reflexivity | exact Hm].
      * intros (d' & [[= <-]|(H & _)] & Hq); [|discriminate]. congruence.
    + split; [intros H; congruence|].
      intros (d' & [[= <-]|(H & _)] & Hq); congruence.
  - destruct (tmp_is_dir env).
    + destruct (mkdtemp env ("/tmp" ++ "/gapir-cache.XXXXXX")%string)
        as [q|] eqn:Hm.
      * split.
        -- intros <-. exists "/tmp". split; [right; auto | exact Hm].
        -- intros (d' & [H|(_ & _ & ->)] & Hq); [discriminate|]. congruence.
      * split; [intros H; congruence|].
        intros (d' & [H|(_ & _ & ->)] & Hq); congruence.
    + split; [intros H; congruence|].
      intros (d' & [H|(_ & H & _)] & _); discriminate.
Qed.

(** X21. Whenever [createCache] forks the monitor, the cache it returns
    was created with "clean up" enabled, as the comment in the monitor
    assumes, and the monitor works on the directory of that cache.  It walks
    and removes the directory only when the directory is the temporary one
    made for it; a directory given with [--disk-cache-path] is left to the
    destructor of the cache, and only if clean-up was asked for. *)
Theorem monitor_deletes_own_cache os env opts c a :
  createCache os env opts = (c, Some a) ->
  c = OnDiskResourceCache (onDiskCachePath a) true
  /\ onDiskCachePath a <> ""
  /\ (if useTempCacheFolder a
      then path opts = ""
           /\ onDiskCachePath a = getTempOnDiskCachePath env
           /\ Monitor.delete_cache a
              = [Monitor.Nftw (onDiskCachePath a) Monitor.remove_entry 64
                              Monitor.FTW_DEPTH;
                 Monitor.Rmdir (onDiskCachePath a)]
      else onDiskCachePath a = path opts
           /\ cleanUp opts = true
           /\ Monitor.delete_cache a = [Monitor.ResetOnDiskCache]).
Proof.
  rewrite CacheFacts.createCache_eq.
  destruct (linux_or_osx os && enabled opts
            && negb (Nat.eqb (String.length (resolved_path env opts)) 0)
            && OnDiskResourceCache_create env (resolved_path env opts)
                                          (resolved_cleanUp opts)) eqn:Hc;
    [|discriminate].
  apply andb_prop in Hc as [Hc _]. apply andb_prop in Hc as [_ Hl].
  apply negb_true_iff in Hl.
  assert (Hne : resolved_path env opts <> "").
  { intros H. rewrite H in Hl. discriminate. }
  unfold resolved_path, resolved_cleanUp in *.
  unfold Monitor.delete_cache.
  destruct (Nat.eqb (String.length (path opts)) 0) eqn:Hp.
  - apply CacheFacts.length_zero_iff in Hp. rewrite orb_true_r.
    intros [= <- <-]. cbn [onDiskCachePath useTempCacheFolder].
    repeat split; assumption.
  - rewrite orb_false_r. destruct (cleanUp opts); [|discriminate].
    intros [= <- <-]. cbn [onDiskCachePath useTempCacheFolder].
    repeat split. exact Hne.
Qed.

Lemma getTempOnDiskCachePath_spec_witness :
  "/var/tmp/gapir-cache.XXXXXX" <> ""
  /\ getTempOnDiskCachePath
       (mkEnv (Some "/var/tmp") false (fun t => Some t) (fun _ _ => true) 0)
     = "/var/tmp/gapir-cache.XXXXXX".
Proof.
  assert (H : "/var/tmp/gapir-cache.XXXXXX" <> "") by discriminate.
  split; [exact H|].
  apply (proj2 (getTempOnDiskCachePath_spec
                  (mkEnv (Some "/var/tmp") false (fun t => Some t)
                         (fun _ _ => true) 0)
                  "/var/tmp/gapir-cache.XXXXXX" H)).
  exists "/var/tmp". split; [left; reflexivity | reflexivity].
Defined.

Lemma monitor_deletes_own_cache_witness :
  createCache GAPID_OS_LINUX
    (mkEnv None true (fun t => Some t) (fun _ _ => true) 0)
    (mkOnDiskCache true true "/cache")
  = (OnDiskResourceCache "/cache" true, Some (mkMonitorArgs "/cache" false))
  /\ Monitor.delete_cache (mkMonitorArgs "/cache" false)
     = [Monitor.ResetOnDiskCache].
Proof.
  split; [reflexivity|].
  destruct (monitor_deletes_own_cache GAPID_OS_LINUX
              (mkEnv None true (fun t => Some t) (fun _ _ => true) 0)
              (mkOnDiskCache true true "/cache")
              (OnDiskResourceCache "/cache" true)
              (mkMonitorArgs "/cache" false) eq_refl) as (_ & _ & H).
  exact (proj2 (proj2 H)).
Defined.

End CacheMore.

(** ** Further facts about the monitor process *)

Module MonitorMore.
Import Monitor.

Section Facts.

Variable parent_alive : nat -> bool.
Variable opendir_ok : bool.
Variable args : Cache.MonitorArgs.

Local Abbreviation monitor := (monitor parent_alive opendir_ok args).

Lemma deletions_delete_cache : deletions (delete_cache args) = 1.
Proof.
  unfold delete_cache. destruct (Cache.useTempCacheFolder args); reflexivity.
Qed.

(** X22. Once some poll finds the parent gone, the monitor deletes the
    cache exactly once if [opendir] gives it the directory, and not at all
    if it does not; either way it has called [usleep] once for every poll
    that found the parent alive, and nothing comes after [exit(0)].  While
    every poll finds the parent alive it deletes nothing. *)
Theorem monitor_deletes_exactly_once fuel :
  (forall k,
      parent_alive k = false -> k < fuel ->
      deletions (monitor fuel) = (if opendir_ok then 1 else 0)
      /\ exists n t,
           (forall j, j < n -> parent_alive j = true)
           /\ parent_alive n = false
           /\ monitor fuel = waits n ++ Kill 0 false :: t ++ [ExitProcess 0]
           /\ List.length (waits n) = 2 * n)
  /\ ((forall j, j < fuel -> parent_alive j = true) ->
      monitor fuel = waits fuel /\ deletions (monitor fuel) = 0).
Proof.
  unfold Monitor.monitor.
  destruct (MonitorFacts.wait_for_parent_shape parent_alive fuel 0)
    as (n & Hn & Hs).
  cbn [Nat.add] in Hn, Hs.
  assert (Hlen : forall m, List.length (waits m) = 2 * m).
  { induction m as [|m IH]; [reflexivity|]. cbn [waits List.length].
    rewrite IH. lia. }
  split.
  - intros k Hk Hlt.
    destruct Hs as [[-> _]|(_ & Hd & Hw)].
    + rewrite (Hn k Hlt) in Hk. discriminate.
    + rewrite Hw. split.
      * rewrite !MonitorFacts.deletions_app, MonitorFacts.deletions_waits.
        unfold Monitor.after_parent_exit.
        change (deletions [Kill 0 false]) with 0.
        change (deletions (Opendir (Cache.onDiskCachePath args) opendir_ok
                             :: (if opendir_ok then delete_cache args else [])
                             ++ [ExitProcess 0]))
          with (deletions ((if opendir_ok then delete_cache args else [])
                           ++ [ExitProcess 0])).
        rewrite MonitorFacts.deletions_app.
        destruct opendir_ok; [rewrite deletions_delete_cache|]; reflexivity.
      * exists n. eexists. split; [exact Hn|]. split; [exact Hd|].
        split; [|apply Hlen].
        unfold Monitor.after_parent_exit. rewrite <- app_assoc.
        cbn [app]. rewrite app_comm_cons. reflexivity.
  - intros Ha.
    destruct Hs as [[-> Hw]|(Hlt & Hd & _)].
    + rewrite Hw. split; [reflexivity | apply MonitorFacts.deletions_waits].
    + rewrite (Ha n Hlt) in Hd. discriminate.
Qed.

End Facts.

Lemma monitor_deletes_exactly_once_witness :
  (negb (Nat.eqb 1 1) = false /\ 1 < 3)
  /\ deletions
       (monitor (fun n => negb (Nat.eqb n 1)) false
                (Cache.mkMonitorArgs "/cache" false) 3) = 0.
Proof.
  split; [split; [reflexivity | lia]|].
  refine (proj1 (proj1 (monitor_deletes_exactly_once
                          (fun n => negb (Nat.eqb n 1)) false
                          (Cache.mkMonitorArgs "/cache" false) 3)
                       1 eq_refl _)).
  lia.
Defined.

End MonitorMore.

(** ** Facts about the deletion of the monitor *)

Module CacheTreeFacts.
Import Monitor CacheTree.

Lemma nftw_depth_Directory fn fpath name es :
  nftw_depth fn fpath (Directory name es) =
  let '(c, ret, es') := nftw_entries fn fpath es in
  if Z.eqb ret 0 then
    let r := fn fpath FTW_DP in
    let (ret', e') := perform r (Directory name es') in
    (c ++ [mkCall fpath FTW_DP r ret'], ret', e')
  else (c, ret, Some (Directory name es')).
Proof.
  cbn [nftw_depth].
  match goal with
  | |- context [?walk es] =>
      is_fix walk;
      assert (Hw : forall l, walk l = nftw_entries fn fpath l)
  end.
  { induction l as [|x xs IH]; [reflexivity|].
    cbn [nftw_entries]. rewrite <- IH. reflexivity. }
  rewrite Hw. reflexivity.
Qed.

(** Under [FTW_DEPTH] the lambda never removes a directory: the walk of a
    directory always ends with a call that failed, and the directory is
    still there. *)
Lemma nftw_depth_keeps_directory fpath name es :
  exists c ret es',
    nftw_depth remove_entry fpath (Directory name es)
    = (c, ret, Some (Directory name es'))
    /\ ret <> 0%Z
    /\ nftw_entries remove_entry fpath es
       = (if Z.eqb (snd (fst (nftw_entries remove_entry fpath es))) 0
          then (fst (fst (nftw_entries remove_entry fpath es)), 0%Z, es')
          else (c, ret, es')).
Proof.
  rewrite nftw_depth_Directory.
  destruct (nftw_entries remove_entry fpath es) as [[c ret] es'] eqn:He.
  cbn [fst snd].
  destruct (Z.eqb ret 0) eqn:Hr.
  - apply Z.eqb_eq in Hr. subst ret. cbn [remove_entry perform].
    eexists. exists (-1)%Z, es'. split; [reflexivity|].
    split; [discriminate | reflexivity].
  - apply Z.eqb_neq in Hr. exists c, ret, es'.
    split; [reflexivity|]. split; [exact Hr | reflexivity].
Qed.

Lemma nftw_entries_files fpath es :
  forallb is_file es = true ->
  exists c, nftw_entries remove_entry fpath es = (c, 0%Z, []).
Proof.
  induction es as [|x xs IH]; intros H; [exists []; reflexivity|].
  cbn [forallb] in H. apply andb_prop in H as [Hx Hxs].
  destruct x as [n|n l]; [|discriminate].
  destruct (IH Hxs) as [c Hc].
  cbn [nftw_entries nftw_depth remove_entry perform Z.eqb].
  rewrite Hc. eexists. reflexivity.
Qed.

Lemma nftw_entries_first_directory fpath pre sub subs post :
  forallb is_file pre = true ->
  exists c ret subs',
    nftw_entries remove_entry fpath (pre ++ Directory sub subs :: post)
    = (c, ret, Directory sub subs' :: post)
    /\ ret <> 0%Z.
Proof.
  induction pre as [|x xs IH]; intros H.
  - cbn [app nftw_entries entry_name].
    destruct (nftw_depth_keeps_directory (fpath ++ "/" ++ sub)%string sub subs)
      as (c & ret & subs' & Hd & Hr & _).
    rewrite Hd. apply Z.eqb_neq in Hr. rewrite Hr.
    exists c, ret, subs'. split; [reflexivity|].
    apply Z.eqb_neq. exact Hr.
  - cbn [forallb] in H. apply andb_prop in H as [Hx Hxs].
    destruct x as [n|n l]; [|discriminate].
    destruct (IH Hxs) as (c & ret & subs' & Hc & Hr).
    cbn [app nftw_entries nftw_depth remove_entry perform Z.eqb].
    rewrite Hc. eexists. exists ret, subs'. split; [reflexivity | exact Hr].
Qed.

Lemma run_events_app t u fs :
  run_events (t ++ u) fs = run_events u (run_events t fs).
Proof. apply fold_left_app. Qed.

Lemma run_events_waits k fs : run_events (waits k) fs = fs.
Proof.
  induction k as [|k IH]; [reflexivity|].
  cbn [waits]. unfold run_events in *. cbn [fold_left run_event].
  destruct fs; exact IH.
Qed.

(** The monitor of a temporary directory, from the poll that finds the
    parent gone: what its calls leave of the tree. *)
Lemma monitor_on_tree parent_alive dir fuel k fs :
  parent_alive k = false ->
  k < fuel ->
  run_events (monitor parent_alive true (Cache.mkMonitorArgs dir true) fuel)
             (Some fs)
  = snd (perform (rmdir dir)
           match snd (nftw_depth remove_entry dir fs) with
           | Some root => root
           | None => File dir
           end)
    \/ (snd (nftw_depth remove_entry dir fs) = None
        /\ run_events
             (monitor parent_alive true (Cache.mkMonitorArgs dir true) fuel)
             (Some fs) = None).
Proof.
  intros Hk Hlt. unfold monitor.
  destruct (MonitorFacts.wait_for_parent_shape parent_alive fuel 0)
    as (n & Hn & Hs).
  cbn [Nat.add] in Hn, Hs.
  destruct Hs as [[-> _]|(_ & _ & Hw)].
  { rewrite (Hn k Hlt) in Hk. discriminate. }
  rewrite Hw. unfold after_parent_exit, delete_cache.
  cbn [Cache.useTempCacheFolder Cache.onDiskCachePath].
  rewrite !run_events_app, run_events_waits.
  unfold run_events. cbn [fold_left run_event app].
  destruct (snd (nftw_depth remove_entry dir fs)) as [root|] eqn:Hr.
  - left. reflexivity.
  - right. split; reflexivity.
Qed.

(** C9. The deletion the monitor runs on a temporary cache directory is
    not the recursive one its comment announces.  With [FTW_DEPTH], [nftw]
    passes a directory as [FTW_DP], for which the lambda calls [unlink];
    that fails and stops the walk.  So when the directory holds a
    subdirectory, the files that come before it are removed, and then the
    subdirectory, everything after it and the cache directory itself are
    still there when the monitor exits.  Only a directory that holds
    nothing but files is removed, by the [rmdir] that follows the walk. *)
Theorem monitor_leaves_nested_cache parent_alive dir fuel k name :
  parent_alive k = false ->
  k < fuel ->
  (forall pre sub subs post,
      forallb is_file pre = true ->
      exists subs',
        run_events
          (monitor parent_alive true (Cache.mkMonitorArgs dir true) fuel)
          (Some (Directory name (pre ++ Directory sub subs :: post)))
        = Some (Directory name (Directory sub subs' :: post)))
  /\ (forall files,
         forallb is_file files = true ->
         run_events
           (monitor parent_alive true (Cache.mkMonitorArgs dir true) fuel)
           (Some (Directory name files))
         = None).
Proof.
  intros Hk Hlt. split.
  - intros pre sub subs post Hpre.
    destruct (nftw_entries_first_directory dir pre sub subs post Hpre)
      as (c & ret & subs' & He & Hr).
    exists subs'.
    destruct (monitor_on_tree parent_alive dir fuel k
                (Directory name (pre ++ Directory sub subs :: post)) Hk Hlt)
      as [H|[H _]]; rewrite nftw_depth_Directory, He in H;
      apply Z.eqb_neq in Hr; rewrite Hr in H; cbn [snd] in H.
    + rewrite H. reflexivity.
    + discriminate.
  - intros files Hf.
    destruct (nftw_entries_files dir files Hf) as [c Hc].
    destruct (monitor_on_tree parent_alive dir fuel k
                (Directory name files) Hk Hlt)
      as [H|[_ H]]; [|exact H].
    rewrite nftw_depth_Directory, Hc in H.
    cbn [Z.eqb remove_entry perform snd] in H. exact H.
Qed.

Lemma monitor_leaves_nested_cache_witness :
  (negb (Nat.eqb 0 0) = false /\ 0 < 1)
  /\ run_events
       (monitor (fun n => negb (Nat.eqb n 0)) true
                (Cache.mkMonitorArgs "/tmp/gapir-cache.abc" true) 1)
       (Some (Directory "gapir-cache.abc"
                [File "a"; Directory "sub" [File "c"]; File "b"]))
     = Some (Directory "gapir-cache.abc" [Directory "sub" []; File "b"]).
Proof.
  split; [split; [reflexivity | lia]|].
  destruct (proj1 (monitor_leaves_nested_cache
                     (fun n => negb (Nat.eqb n 0)) "/tmp/gapir-cache.abc"
                     1 0 "gapir-cache.abc" eq_refl (le_n 1))
                  [File "a"] "sub" [File "c"] [File "b"] eq_refl)
    as [subs' H].
  vm_compute. reflexivity.
Defined.

End CacheTreeFacts.
